(** * Verification of the CoreCast stream clients (Solana/lets-bonk-fun-example)

    The source file holds two programs.  The first one (the trade feed) reads
    its configuration once, validates [trade_filter], opens one stream and
    prints what it receives, converting addresses with a cached base58
    helper.  The second one (the supervisor) keeps one stream alive: it
    reconnects with exponential backoff, reloads its configuration when the
    file changes and stops on a signal; its base58 helper has no cache.

    Layout: definitions first (modules [Backoff], [Bytes], [TradeFeed],
    [Supervisor]), then the theorems. *)

From Stdlib Require Import ZArith NArith List Bool Lia.
From Stdlib Require Import Strings.String Strings.Ascii Strings.Byte.
Import ListNotations.
Local Open Scope Z_scope.

(* ===================================================================== *)
(** * Definitions *)
(* ===================================================================== *)

(** ** Reconnect delay (second program, lines 558-563 and 709-716) *)

Module Backoff.

(** JavaScript numbers are binary64 values.  The delay computation only
    forms [2^n] and [1000 * 2^n] for a natural number [n]: both have a
    significand of at most seven bits, so they are exact as long as they
    stay below [2^1024], and they are [+Infinity] from there on. *)
Inductive number : Type :=
| Finite (z : Z)
| Infinity.

Definition OVERFLOW : Z := 2 ^ 1024.

(** [Math.pow(2, n)] *)
Definition Math_pow2 (n : N) : number :=
  if (n <? 1024)%N then Finite (2 ^ Z.of_N n) else Infinity.

(** [a * x] for a positive integer constant [a] *)
Definition times (a : Z) (x : number) : number :=
  match x with
  | Finite z => if a * z <? OVERFLOW then Finite (a * z) else Infinity
  | Infinity => Infinity
  end.

(** [Math.min(x, m)] for a finite [m] *)
Definition Math_min (x : number) (m : Z) : Z :=
  match x with
  | Finite z => Z.min z m
  | Infinity => m
  end.

Definition MAX_RECONNECT_DELAY : Z := 30000.
Definition INITIAL_RECONNECT_DELAY : Z := 1000.

(** [getReconnectDelay()], as a function of the global
    [reconnectAttempts] it reads. *)
Definition getReconnectDelay (reconnectAttempts : N) : Z :=
  let delay :=
    Math_min (times INITIAL_RECONNECT_DELAY (Math_pow2 reconnectAttempts))
             MAX_RECONNECT_DELAY in
  delay.

(** The formula of the specification, over the integers. *)
Definition spec_delay (initialDelay maxDelay : Z) (n : N) : Z :=
  Z.min (initialDelay * 2 ^ Z.of_N n) maxDelay.

End Backoff.

(** ** Byte strings, hexadecimal keys and the base58 alphabet *)

Module Bytes.

(** What the call sites pass to [toBase58]: a [bytes] field of a decoded
    message, reached through optional chaining.  It is a [Buffer], or
    [undefined] (or [null]) when a link of the chain is missing. *)
Inductive bytes_arg : Type :=
| Undefined
| Null
| Buffer (data : list byte).

(** [!bytes]: a [Buffer] is an object, hence truthy even when empty. *)
Definition not_ (bytes : bytes_arg) : bool :=
  match bytes with
  | Undefined | Null => true
  | Buffer _ => false
  end.

(** [bytes.length], read only after [!bytes] was false. *)
Definition length_ (bytes : bytes_arg) : N :=
  match bytes with
  | Buffer data => N.of_nat (List.length data)
  | Undefined | Null => 0%N
  end.

Definition data_of (bytes : bytes_arg) : list byte :=
  match bytes with
  | Buffer data => data
  | Undefined | Null => []
  end.

(** [Buffer.from(bytes).toString("hex")]: two lower-case digits a byte. *)
Definition hex_digit (n : N) : ascii :=
  match String.get (N.to_nat n) "0123456789abcdef" with
  | Some c => c
  | None => "0"%char
  end.

Definition hex_byte (b : byte) (rest : string) : string :=
  let n := Byte.to_N b in
  String (hex_digit (n / 16)) (String (hex_digit (n mod 16)) rest).

Fixpoint hex (data : list byte) : string :=
  match data with
  | [] => EmptyString
  | b :: data' => hex_byte b (hex data')
  end.

(** Reading a hexadecimal digit back, used to show that keys are
    faithful. *)
Definition unhex_digit (c : ascii) : N :=
  let n := N_of_ascii c in
  if (n <? 58)%N then (n - 48)%N else (n - 87)%N.

Definition unhex_byte (hi lo : ascii) : option byte :=
  Byte.of_N (16 * unhex_digit hi + unhex_digit lo).

(** The encoder of the [bs58] package, as the package documents it:
    every leading zero byte becomes the digit [1], and the remaining
    bytes, read as one big-endian number, are written in base 58 with the
    Bitcoin alphabet.  The programs reach it only through the parameter
    [bs58_encode] of their sections; this instance serves the concrete
    examples. *)
Definition ALPHABET : string :=
  "123456789ABCDEFGHJKLMNPQRSTUVWXYZabcdefghijkmnopqrstuvwxyz".

Definition base58_digit (d : N) : ascii :=
  match String.get (N.to_nat d) ALPHABET with
  | Some c => c
  | None => "1"%char
  end.

Fixpoint leading_zeros (data : list byte) : nat :=
  match data with
  | x00 :: data' => S (leading_zeros data')
  | _ => O
  end.

Definition big_endian (data : list byte) : N :=
  fold_left (fun acc b => (256 * acc + Byte.to_N b)%N) data 0%N.

Fixpoint base58_digits (fuel : nat) (n : N) (acc : string) : string :=
  match fuel with
  | O => acc
  | S fuel' =>
      if (n =? 0)%N then acc
      else base58_digits fuel' (n / 58) (String (base58_digit (n mod 58)) acc)
  end.

Fixpoint ones (k : nat) (rest : string) : string :=
  match k with
  | O => rest
  | S k' => String "1"%char (ones k' rest)
  end.

Definition base58 (data : list byte) : string :=
  ones (leading_zeros data)
       (base58_digits (2 * List.length data) (big_endian data) EmptyString).

(** [bs58.encode] on a [Buffer] returns; [None] stands for a call that
    throws. *)
Definition bs58 (data : list byte) : option string := Some (base58 data).

(** The conversion as the specification words it: the text [undefined]
    for a missing or empty input, [invalid_address] when the encoder
    raises, the encoding otherwise. *)
Definition spec_toBase58 (encode : list byte -> option string)
    (bytes : bytes_arg) : string :=
  match bytes with
  | Undefined | Null | Buffer [] => "undefined"
  | Buffer data =>
      match encode data with
      | Some encoded => encoded
      | None => "invalid_address"
      end
  end.

End Bytes.

(** ** First program: the trade feed (lines 1-537) *)

Module TradeFeed.
Import Bytes.
Local Open Scope string_scope.

(** *** Configuration *)

(** What [yaml.load] yields under a scalar key such as [trade_filter]:
    nothing when the key is absent, [null], a boolean, a number (integers
    stand for the numeric scalars), a string, or a nested sequence or
    mapping. *)
Inductive yaml : Type :=
| YUndefined
| YNull
| YBool (b : bool)
| YInt (z : Z)
| YStr (s : string)
| YNode.

(** JavaScript truthiness *)
Definition truthy (v : yaml) : bool :=
  match v with
  | YUndefined | YNull => false
  | YBool b => b
  | YInt z => negb (z =? 0)%Z
  | YStr s => negb (s =? EmptyString)
  | YNode => true
  end.

(** [a || b] *)
Definition or_ (a b : yaml) : yaml := if truthy a then a else b.

(** [items.includes(v)] for an array of strings: only an equal string is
    found. *)
Definition includes (items : list string) (v : yaml) : bool :=
  match v with
  | YStr s => existsb (String.eqb s) items
  | _ => false
  end.

Record Filters : Type := {
  programs : list string;
  pool : list string;
  tokens : list string;
  traders : list string;
  signers : list string
}.

Record Config : Type := {
  address : string;
  authorization : string;
  insecure : bool;
  stream_type : string;
  filters : Filters;
  trade_filter : yaml
}.

(** Line 36 *)
Definition tradeFilter (config : Config) : yaml :=
  or_ (trade_filter config) (YStr "alltrades").

(** *** Start-up (lines 32-44, 178-208, 248-310, 531-537) *)

Definition Request : Type := list (string * list string).

Inductive effect : Type :=
| ConsoleError (text : string)
| Uncaught (what : string)
| NewCoreCast (target : string) (plaintext : bool)
| SetInterval (ms : Z)
| Subscribe (method : string) (request : Request).

Inductive status : Type :=
| Running
| Exited (code : Z).

(** What the vendor packages do when called: whether
    [loadPackageDefination] and [grpc.loadPackageDefinition] return,
    whether the client and its metadata are built, and whether the
    streaming method returns a call object. *)
Record vendor : Type := {
  proto_loads : bool;
  client_constructs : bool;
  call_returns : bool
}.

(** [if (list && list.length > 0) request.field = {addresses: list}] *)
Definition field (name : string) (addresses : list string) : Request :=
  match addresses with
  | [] => []
  | _ :: _ => [(name, addresses)]
  end.

Definition createRequest (config : Config) : Request :=
  let f := filters config in
  (field "program" (programs f) ++ field "pool" (pool f) ++
   field "token" (tokens f) ++ field "trader" (traders f) ++
   field "signer" (signers f))%list.

Definition STATS_INTERVAL_MS : Z := 30000.

(** The [switch] of [listenToStream] *)
Definition method_of (stream_type : string) : option string :=
  if stream_type =? "dex_trades" then Some "DexTrades"
  else if stream_type =? "dex_orders" then Some "DexOrders"
  else if stream_type =? "dex_pools" then Some "DexPools"
  else if stream_type =? "transactions" then Some "Transactions"
  else if stream_type =? "transfers" then Some "Transfers"
  else if stream_type =? "balances" then Some "Balances"
  else None.

(** [listenToStream()]: the effects, and whether it returned ([true]) or
    threw ([false]).  Console logging of the banner is left out. *)
Definition listenToStream (v : vendor) (config : Config)
  : list effect * bool :=
  let request := createRequest config in
  match method_of (stream_type config) with
  | Some method =>
      if call_returns v
      then ([SetInterval STATS_INTERVAL_MS; Subscribe method request], true)
      else ([SetInterval STATS_INTERVAL_MS], false)
  | None => ([SetInterval STATS_INTERVAL_MS], false)
  end.

(** The module body, run once at start-up on the parsed configuration.
    An exception that nothing catches ends the process with status 1. *)
Definition main (v : vendor) (config : Config) : list effect * status :=
  if negb (includes ["alltrades"; "buys"; "sells"] (tradeFilter config))
  then ([ConsoleError "Invalid trade_filter"], Exited 1)
  else if negb (proto_loads v)
  then ([Uncaught "loadPackageDefination"], Exited 1)
  else if negb (client_constructs v)
  then ([Uncaught "CoreCast"], Exited 1)
  else
    let client := NewCoreCast (address config) (insecure config) in
    match listenToStream v config with
    | (effects, true) => (client :: effects, Running)
    | (effects, false) =>
        ((client :: effects ++ [ConsoleError "Failed to start stream:"])%list,
         Exited 1)
    end.

Definition is_subscribe (e : effect) : bool :=
  match e with
  | Subscribe _ _ => true
  | _ => false
  end.

(** A configuration and a vendor to run the start-up on. *)
Definition sample_filters : Filters :=
  {| programs := ["LanMV9sAd7wArD4vJFi2qDdfnVhFxYSUg6eADduJ3uj"];
     pool := []; tokens := []; traders := []; signers := [] |}.

Definition sample_config (filter : yaml) : Config :=
  {| address := "corecast.bitquery.io"; authorization := "token";
     insecure := false; stream_type := "dex_trades";
     filters := sample_filters; trade_filter := filter |}.

Definition cooperative : vendor :=
  {| proto_loads := true; client_constructs := true; call_returns := true |}.

(** *** Cached address conversion (lines 8-10 and 77-100) *)

(** [base58Cache]: a [Map] from hexadecimal keys to display strings.  A
    [Map] iterates in insertion order, so it is a list of entries, oldest
    first, with one entry a key. *)
Definition Cache : Type := list (string * string).

Definition MAX_CACHE_SIZE : N := 10000.

(** [has] followed by [get] *)
Fixpoint cache_get (key : string) (c : Cache) : option string :=
  match c with
  | [] => None
  | (k, v) :: c' => if k =? key then Some v else cache_get key c'
  end.

Definition cache_size (c : Cache) : N := N.of_nat (List.length c).

(** [keys().next().value] *)
Definition cache_first_key (c : Cache) : option string :=
  match c with
  | [] => None
  | (k, _) :: _ => Some k
  end.

Definition cache_delete (key : option string) (c : Cache) : Cache :=
  match key with
  | Some key => filter (fun e => negb (fst e =? key)) c
  | None => c
  end.

(** [set]: a present key keeps its place and takes the new value, a new
    key goes last. *)
Fixpoint cache_set (key value : string) (c : Cache) : Cache :=
  match c with
  | [] => [(key, value)]
  | (k, v) :: c' =>
      if k =? key then (k, value) :: c' else (k, v) :: cache_set key value c'
  end.

Section Encoder.

(** [bs58.encode]; [None] when it throws. *)
Variable bs58_encode : list byte -> option string.

(** [toBase58(bytes)]: the returned string and the cache it leaves. *)
Definition toBase58 (bytes : bytes_arg) (base58Cache : Cache)
  : string * Cache :=
  if not_ bytes || (length_ bytes =? 0)%N then ("undefined", base58Cache)
  else
    let cacheKey := hex (data_of bytes) in
    match cache_get cacheKey base58Cache with
    | Some cached => (cached, base58Cache)
    | None =>
        match bs58_encode (data_of bytes) with
        | Some result =>
            let evicted :=
              if (MAX_CACHE_SIZE <=? cache_size base58Cache)%N
              then cache_delete (cache_first_key base58Cache) base58Cache
              else base58Cache in
            (result, cache_set cacheKey result evicted)
        | None => ("invalid_address", base58Cache)
        end
    end.

(** The cache after a sequence of calls, starting from the empty
    [Map] of line 9. *)
Definition cache_after (calls : list bytes_arg) : Cache :=
  fold_left (fun c bytes => snd (toBase58 bytes c)) calls [].

(** Every entry pairs the key of some byte string with its encoding. *)
Definition sound (c : Cache) : Prop :=
  forall k v, In (k, v) c ->
    exists data, k = hex data /\ bs58_encode data = Some v.

End Encoder.

(** *** Client-side trade filter (lines 46-75) *)

(** The part of a decoded trade that the filter reads:
    [trade.Buy?.Currency?.MintAddress] and the same on the sell side.
    Every link of the chain may be missing. *)
Record currency : Type := { MintAddress : bytes_arg }.
Record side : Type := { Currency : option currency }.
Record trade : Type := { Buy : option side; Sell : option side }.

(** [s?.Currency?.MintAddress] *)
Definition mint_of (s : option side) : bytes_arg :=
  match s with
  | Some s' =>
      match Currency s' with
      | Some c => MintAddress c
      | None => Undefined
      end
  | None => Undefined
  end.

(** [tradeFilter === name] *)
Definition is_name (v : yaml) (name : string) : bool :=
  match v with
  | YStr s => s =? name
  | _ => false
  end.

(** [tokens.some((token) => token === mint)] *)
Definition some_is (mint : string) (tokens : list string) : bool :=
  existsb (fun token => token =? mint) tokens.

Section Filter.

Variable bs58_encode : list byte -> option string.

(** [shouldShowTrade(trade)]: the answer and the cache it leaves. *)
Definition shouldShowTrade (config : Config) (t : trade)
    (base58Cache : Cache) : bool * Cache :=
  match tokens (filters config) with
  | [] => (true, base58Cache)
  | _ :: _ =>
      let (buyMint, c1) :=
        toBase58 bs58_encode (mint_of (Buy t)) base58Cache in
      let (sellMint, c2) := toBase58 bs58_encode (mint_of (Sell t)) c1 in
      let tokenOnBuySide := some_is buyMint (tokens (filters config)) in
      let tokenOnSellSide := some_is sellMint (tokens (filters config)) in
      if is_name (tradeFilter config) "buys" then (tokenOnBuySide, c2)
      else if is_name (tradeFilter config) "sells" then (tokenOnSellSide, c2)
      else (tokenOnBuySide || tokenOnSellSide, c2)
  end.

(** The decision without the cache: the same tests on the conversion of
    the two mint addresses themselves. *)
Definition shows (config : Config) (t : trade) : bool :=
  match tokens (filters config) with
  | [] => true
  | _ :: _ =>
      let onBuySide :=
        some_is (spec_toBase58 bs58_encode (mint_of (Buy t)))
                (tokens (filters config)) in
      let onSellSide :=
        some_is (spec_toBase58 bs58_encode (mint_of (Sell t)))
                (tokens (filters config)) in
      if is_name (tradeFilter config) "buys" then onBuySide
      else if is_name (tradeFilter config) "sells" then onSellSide
      else onBuySide || onSellSide
  end.

(** The conversions [shouldShowTrade] asks for, in order. *)
Definition mints_asked (config : Config) (t : trade) : list bytes_arg :=
  match tokens (filters config) with
  | [] => []
  | _ :: _ => [mint_of (Buy t); mint_of (Sell t)]
  end.

End Filter.

(** The same configuration with another [trade_filter]. *)
Definition with_trade_filter (v : yaml) (config : Config) : Config :=
  {| address := address config; authorization := authorization config;
     insecure := insecure config; stream_type := stream_type config;
     filters := filters config; trade_filter := v |}.

(** *** Buffered console output (lines 12-16 and 102-125) *)

Definition LOG_FLUSH_INTERVAL_MS : Z := 100.
Definition MAX_LOG_BUFFER_SIZE : N := 1000.

(** [lines.join("\n")] *)
Definition newline : string := String "010"%char EmptyString.
Definition join (l : list string) : string := String.concat newline l.

(** What the logger does to the outside: a [console.log] of one text, or
    the installation of the flush interval. *)
Inductive log_effect : Type :=
| Printed (text : string)
| IntervalSet (ms : Z).

(** [logBuffer], whether [logFlushInterval] holds a timer, and what has
    been done so far. *)
Record logger : Type := {
  logBuffer : list string;
  logFlushInterval : bool;
  log_effects : list log_effect
}.

Definition no_logs : logger :=
  {| logBuffer := []; logFlushInterval := false; log_effects := [] |}.

(** [flushLogs()] (lines 120-125) *)
Definition flushLogs (l : logger) : logger :=
  match logBuffer l with
  | [] => l
  | _ :: _ =>
      {| logBuffer := [];
         logFlushInterval := logFlushInterval l;
         log_effects := (log_effects l ++ [Printed (join (logBuffer l))])%list |}
  end.

(** The callback of the flush interval (lines 111-116) *)
Definition on_flush_interval (l : logger) : logger :=
  match logBuffer l with
  | [] => l
  | _ :: _ =>
      {| logBuffer := [];
         logFlushInterval := logFlushInterval l;
         log_effects := (log_effects l ++ [Printed (join (logBuffer l))])%list |}
  end.

(** [bufferedLog(message)] (lines 103-118) *)
Definition bufferedLog (message : string) (l : logger) : logger :=
  let l := {| logBuffer := (logBuffer l ++ [message])%list;
              logFlushInterval := logFlushInterval l;
              log_effects := log_effects l |} in
  let l :=
    if (MAX_LOG_BUFFER_SIZE <=? N.of_nat (List.length (logBuffer l)))%N
    then flushLogs l else l in
  if logFlushInterval l then l
  else {| logBuffer := logBuffer l;
          logFlushInterval := true;
          log_effects :=
            (log_effects l ++ [IntervalSet LOG_FLUSH_INTERVAL_MS])%list |}.

(** What happens to the logger: a message is logged, the interval fires
    (only once it is installed), or a handler calls [flushLogs]. *)
Inductive log_event : Type :=
| Log (message : string)
| IntervalFires
| Flush.

Definition log_step (e : log_event) (l : logger) : logger :=
  match e with
  | Log message => bufferedLog message l
  | IntervalFires => if logFlushInterval l then on_flush_interval l else l
  | Flush => flushLogs l
  end.

Definition log_run (events : list log_event) (l : logger) : logger :=
  fold_left (fun l e => log_step e l) events l.

(** The messages logged by a sequence of events, in order. *)
Definition logged (events : list log_event) : list string :=
  flat_map (fun e => match e with
                     | Log message => [message]
                     | _ => []
                     end) events.

(** The characters that reach the console: [console.log] ends each text
    with a line break. *)
Definition console_text (effects : list log_effect) : string :=
  String.concat EmptyString
    (flat_map (fun e => match e with
                        | Printed text => [(text ++ newline)%string]
                        | IntervalSet _ => []
                        end) effects).

(** Each message followed by a line break. *)
Definition as_lines (messages : list string) : string :=
  String.concat EmptyString (List.map (fun m => (m ++ newline)%string) messages).

(** What a logger has shown and still holds, read as lines. *)
Definition all_lines (l : logger) : string :=
  (console_text (log_effects l) ++ as_lines (logBuffer l))%string.

Definition intervals_set (effects : list log_effect) : nat :=
  List.length (filter (fun e => match e with
                                | IntervalSet _ => true
                                | Printed _ => false
                                end) effects).

(** The interval has been set once if [logFlushInterval] holds a timer,
    and never otherwise. *)
Definition interval_counted (l : logger) : Prop :=
  intervals_set (log_effects l) = if logFlushInterval l then 1%nat else 0%nat.

End TradeFeed.

(** ** Second program: the stream supervisor (lines 538-1036) *)

Module Supervisor.
Import Bytes Backoff.
Local Open Scope string_scope.

(** *** Address conversion without a cache (lines 565-573) *)

Section Encoder.

(** [bs58.encode]; [None] when it throws. *)
Variable bs58_encode : list byte -> option string.

Definition toBase58 (bytes : bytes_arg) : string :=
  if not_ bytes || (length_ bytes =? 0)%N then "undefined"
  else
    match bs58_encode (data_of bytes) with
    | Some encoded => encoded
    | None => "invalid_address"
    end.

End Encoder.

(** *** Configuration and request *)

Record Server : Type := {
  address : string;
  authorization : string;
  insecure : option bool
}.

Record Filters : Type := {
  programs : list string;
  pool : list string;
  traders : list string;
  signers : list string
}.

(** A parsed configuration is taken to have its [server] and [filters]
    sections; an absent or empty list of addresses is the empty list. *)
Record Config : Type := {
  server : Server;
  filters : Filters
}.

Definition Request : Type := list (string * list string).

Definition field (name : string) (addresses : list string) : Request :=
  match addresses with
  | [] => []
  | _ :: _ => [(name, addresses)]
  end.

Definition createRequest (config : Config) : Request :=
  let f := filters config in
  (field "program" (programs f) ++ field "pool" (pool f) ++
   field "trader" (traders f) ++ field "signer" (signers f))%list.

(** *** The host: timers, calls and the console *)

(** Timers and calls are named by the handles the host hands out. *)
Abbreviation handle := nat.

Inductive effect : Type :=
| ConsoleError (text : string)
| ConsoleLog (text : string)
| Reconnecting (delay : Z) (attempt : N)
| NewCoreCast (target : string)
| DexTrades (stream : handle) (request : Request)
| Cancel (stream : handle)
| SetTimeout (timer : handle) (delay : Z)
| ClearTimeout (timer : handle)
| SetInterval (timer : handle) (ms : Z)
| ClearInterval (timer : handle)
| Exit (code : Z).

(** The part of the world the program reaches only through calls: the
    next free handle, the timeouts that have been set and have neither
    fired nor been cleared, the calls that were opened and not cancelled,
    everything done so far in order, and the exit status once the process
    has ended. *)
Record host : Type := {
  fresh : handle;
  timeouts : list (handle * Z);
  calls : list handle;
  trace : list effect;
  exited : option Z
}.

Definition emit (e : effect) (h : host) : host :=
  {| fresh := fresh h; timeouts := timeouts h; calls := calls h;
     trace := trace h ++ [e]; exited := exited h |}.

Definition without_timer (t : handle) (l : list (handle * Z))
  : list (handle * Z) :=
  filter (fun p => negb (Nat.eqb (fst p) t)) l.

Definition without_call (s : handle) (l : list handle) : list handle :=
  filter (fun s' => negb (Nat.eqb s' s)) l.

Definition host_setTimeout (delay : Z) (h : host) : handle * host :=
  let t := fresh h in
  (t, {| fresh := S t; timeouts := timeouts h ++ [(t, delay)];
         calls := calls h; trace := trace h ++ [SetTimeout t delay];
         exited := exited h |}).

Definition host_clearTimeout (t : handle) (h : host) : host :=
  {| fresh := fresh h; timeouts := without_timer t (timeouts h);
     calls := calls h; trace := trace h ++ [ClearTimeout t];
     exited := exited h |}.

(** A timeout that fires is no longer pending. *)
Definition host_fire (t : handle) (h : host) : host :=
  {| fresh := fresh h; timeouts := without_timer t (timeouts h);
     calls := calls h; trace := trace h; exited := exited h |}.

Definition host_setInterval (ms : Z) (h : host) : handle * host :=
  let t := fresh h in
  (t, {| fresh := S t; timeouts := timeouts h; calls := calls h;
         trace := trace h ++ [SetInterval t ms]; exited := exited h |}).

Definition host_clearInterval (t : handle) (h : host) : host :=
  emit (ClearInterval t) h.

(** [client.DexTrades(request, metadata)], when it returns a call. *)
Definition host_DexTrades (request : Request) (h : host) : handle * host :=
  let s := fresh h in
  (s, {| fresh := S s; timeouts := timeouts h; calls := calls h ++ [s];
         trace := trace h ++ [DexTrades s request]; exited := exited h |}).

(** [stream.cancel()]; the call object of grpc-js cancels without
    throwing. *)
Definition host_cancel (s : handle) (h : host) : option host :=
  Some {| fresh := fresh h; timeouts := timeouts h;
          calls := without_call s (calls h);
          trace := trace h ++ [Cancel s]; exited := exited h |}.

Definition host_exit (code : Z) (h : host) : host :=
  {| fresh := fresh h; timeouts := timeouts h; calls := calls h;
     trace := trace h ++ [Exit code]; exited := Some code |}.

(** *** Global state (lines 544-563) *)

(** The module variables, and the host.  [reconnectAttempts] starts at 0
    and is only incremented or reset to 0, so it is a natural number.  The
    trade counters and clock readings of the performance report are left
    out: nothing below depends on them. *)
Record world : Type := {
  config : option Config;
  client : option string;
  metadata : option (list (string * string));
  currentStream : option handle;
  isReloading : bool;
  performanceTimer : option handle;
  reconnectAttempts : N;
  reconnectTimer : option handle;
  isIntentionalDisconnect : bool;
  env : host
}.

Definition set_config v w :=
  Build_world v (client w) (metadata w) (currentStream w) (isReloading w)
    (performanceTimer w) (reconnectAttempts w) (reconnectTimer w)
    (isIntentionalDisconnect w) (env w).
Definition set_client v w :=
  Build_world (config w) v (metadata w) (currentStream w) (isReloading w)
    (performanceTimer w) (reconnectAttempts w) (reconnectTimer w)
    (isIntentionalDisconnect w) (env w).
Definition set_metadata v w :=
  Build_world (config w) (client w) v (currentStream w) (isReloading w)
    (performanceTimer w) (reconnectAttempts w) (reconnectTimer w)
    (isIntentionalDisconnect w) (env w).
Definition set_currentStream v w :=
  Build_world (config w) (client w) (metadata w) v (isReloading w)
    (performanceTimer w) (reconnectAttempts w) (reconnectTimer w)
    (isIntentionalDisconnect w) (env w).
Definition set_isReloading v w :=
  Build_world (config w) (client w) (metadata w) (currentStream w) v
    (performanceTimer w) (reconnectAttempts w) (reconnectTimer w)
    (isIntentionalDisconnect w) (env w).
Definition set_performanceTimer v w :=
  Build_world (config w) (client w) (metadata w) (currentStream w)
    (isReloading w) v (reconnectAttempts w) (reconnectTimer w)
    (isIntentionalDisconnect w) (env w).
Definition set_reconnectAttempts v w :=
  Build_world (config w) (client w) (metadata w) (currentStream w)
    (isReloading w) (performanceTimer w) v (reconnectTimer w)
    (isIntentionalDisconnect w) (env w).
Definition set_reconnectTimer v w :=
  Build_world (config w) (client w) (metadata w) (currentStream w)
    (isReloading w) (performanceTimer w) (reconnectAttempts w) v
    (isIntentionalDisconnect w) (env w).
Definition set_isIntentionalDisconnect v w :=
  Build_world (config w) (client w) (metadata w) (currentStream w)
    (isReloading w) (performanceTimer w) (reconnectAttempts w)
    (reconnectTimer w) v (env w).
Definition set_env v w :=
  Build_world (config w) (client w) (metadata w) (currentStream w)
    (isReloading w) (performanceTimer w) (reconnectAttempts w)
    (reconnectTimer w) (isIntentionalDisconnect w) v.

Definition does (f : host -> host) (w : world) : world :=
  set_env (f (env w)) w.

Definition console_error (text : string) : world -> world :=
  does (emit (ConsoleError text)).

Definition console_log (text : string) : world -> world :=
  does (emit (ConsoleLog text)).

(** A call either returns or throws; what it did to the world before
    throwing stays done. *)
Inductive result : Type :=
| Returns (w : world)
| Throws (w : world).

(** *** Loading the configuration and building the client *)

(** What reading and parsing [config.yaml] gives: an exception, or the
    parsed document, which is falsy ([None]) for an empty file. *)
Inductive file_read : Type :=
| Unreadable
| Parsed (document : option Config).

(** [loadConfig()] (lines 623-632): the returned value, [None] for
    [null] or a falsy document. *)
Definition loadConfig (file : file_read) (w : world)
  : option Config * world :=
  match file with
  | Parsed newConfig => (newConfig, w)
  | Unreadable => (None, console_error "Failed to load configuration:" w)
  end.

(** What the grpc package does in [initializeClient]: both objects are
    built, or the client constructor throws, or [metadata.add] throws. *)
Inductive build : Type :=
| Built
| CoreCastThrows
| MetadataThrows.

(** [initializeClient()] (lines 635-649) *)
Definition initializeClient (b : build) (w : world) : result :=
  match config w with
  | None => Throws w
  | Some cfg =>
      match b with
      | CoreCastThrows => Throws w
      | MetadataThrows =>
          let w := does (emit (NewCoreCast (address (server cfg)))) w in
          let w := set_client (Some (address (server cfg))) w in
          Throws (set_metadata (Some []) w)
      | Built =>
          let w := does (emit (NewCoreCast (address (server cfg)))) w in
          let w := set_client (Some (address (server cfg))) w in
          Returns
            (set_metadata
               (Some [("authorization", authorization (server cfg))]) w)
      end
  end.

(** *** Stopping, backing off, starting *)

(** [stopStream(intentional)] (lines 683-707) *)
Definition stopStream (intentional : bool) (w : world) : world :=
  let w := set_isIntentionalDisconnect intentional w in
  let w :=
    match currentStream w with
    | Some stream =>
        let w :=
          match host_cancel stream (env w) with
          | Some h => set_env h w
          | None => console_error "Error stopping stream:" w
          end in
        set_currentStream None w
    | None => w
    end in
  let w :=
    match performanceTimer w with
    | Some timer =>
        set_performanceTimer None (does (host_clearInterval timer) w)
    | None => w
    end in
  match reconnectTimer w with
  | Some timer => set_reconnectTimer None (does (host_clearTimeout timer) w)
  | None => w
  end.

(** [attemptReconnect()] (lines 719-740), up to the call of
    [setTimeout]; the callback it installs is [reconnect] below. *)
Definition attemptReconnect (w : world) : world :=
  if isIntentionalDisconnect w || isReloading w then w
  else
    let w := set_reconnectAttempts (N.succ (reconnectAttempts w)) w in
    let delay := getReconnectDelay (reconnectAttempts w) in
    let w := does (emit (Reconnecting delay (reconnectAttempts w))) w in
    let (timer, h) := host_setTimeout delay (env w) in
    set_reconnectTimer (Some timer) (set_env h w).

(** [startPerformanceReporting(intervalSeconds)] (lines 777-799) *)
Definition startPerformanceReporting (intervalSeconds : Z) (w : world)
  : world :=
  let w :=
    match performanceTimer w with
    | Some timer => does (host_clearInterval timer) w
    | None => w
    end in
  let (timer, h) := host_setInterval (intervalSeconds * 1000) (env w) in
  set_performanceTimer (Some timer) (set_env h w).

(** [startStream()] (lines 802-934).  [dex] tells whether
    [client.DexTrades] returns a call ([true]) or throws. *)
Definition startStream (dex : bool) (w : world) : result :=
  match client w, config w with
  | Some _, Some cfg =>
      let request := createRequest cfg in
      if dex then
        let (stream, h) := host_DexTrades request (env w) in
        let w := set_currentStream (Some stream) (set_env h w) in
        let w := set_reconnectAttempts 0%N w in
        match performanceTimer w with
        | None => Returns (startPerformanceReporting 30 w)
        | Some _ =>
            Returns (console_log "Reconnected! Trade counter preserved." w)
        end
      else Throws w
  | _, _ => Throws w
  end.

(** The callback given to [setTimeout] (lines 731-739) *)
Definition reconnect (dex : bool) (w : world) : world :=
  let w := console_log "Attempting to reconnect..." w in
  match startStream dex w with
  | Returns w => w
  | Throws w => attemptReconnect (console_error "Reconnection failed:" w)
  end.

(** [stream.on("error", ...)] (lines 893-902) *)
Definition on_error (w : world) : world :=
  if negb (isReloading w) && negb (isIntentionalDisconnect w) then
    let w := console_error "Stream error:" w in
    let w := console_error "Error code:" w in
    attemptReconnect (stopStream false w)
  else w.

(** [stream.on("end", ...)] (lines 904-912) *)
Definition on_end (w : world) : world :=
  if negb (isReloading w) && negb (isIntentionalDisconnect w) then
    let w := console_log "Stream ended unexpectedly" w in
    attemptReconnect (stopStream false w)
  else w.

(** *** Reloading (lines 936-991) *)

Definition differ (a b : string) : bool := negb (a =? b).

Definition differ_flag (a b : option bool) : bool :=
  match a, b with
  | Some x, Some y => negb (Bool.eqb x y)
  | None, None => false
  | _, _ => true
  end.

Definition hasServerConfigChanged (oldConfig newConfig : Config) : bool :=
  differ (address (server oldConfig)) (address (server newConfig))
  || differ (authorization (server oldConfig))
            (authorization (server newConfig))
  || differ_flag (insecure (server oldConfig)) (insecure (server newConfig)).

(** An exception that no handler catches ends the process with
    status 1. *)
Definition uncaught (w : world) : world := does (host_exit 1) w.

(** The body of [reloadAndRestart] after the guard has been passed and
    [isReloading] set (lines 952-990). *)
Definition reload (file : file_read) (b : build) (dex : bool) (w : world)
  : world :=
  let (loaded, w) := loadConfig file w in
  match loaded with
  | None =>
      let w :=
        console_error
          "Failed to reload configuration, keeping current settings" w in
      set_isReloading false w
  | Some newConfig =>
      match config w with
      | None => uncaught w
      | Some oldConfig =>
          let needsNewClient := hasServerConfigChanged oldConfig newConfig in
          let w := stopStream true w in
          let w := set_config (Some newConfig) w in
          let initialized :=
            if needsNewClient then initializeClient b w else Returns w in
          match initialized with
          | Throws w =>
              let w := console_error "Failed to initialize client:" w in
              set_isReloading false w
          | Returns w =>
              match startStream dex w with
              | Returns w => set_isReloading false w
              | Throws w =>
                  let w := console_error "Failed to start stream:" w in
                  set_isReloading false w
              end
          end
      end
  end.

(** [reloadAndRestart()] (lines 946-991) *)
Definition reloadAndRestart (file : file_read) (b : build) (dex : bool)
    (w : world) : world :=
  if isReloading w then w
  else reload file b dex (set_isReloading true w).

(** *** Signals and start-up (lines 993-1004 and 1023-1036) *)

Definition on_signal (w : world) : world :=
  let w := console_log "Shutting down gracefully..." w in
  let w := stopStream true w in
  does (host_exit 0) w.

Definition initial : world :=
  {| config := None; client := None; metadata := None;
     currentStream := None; isReloading := false;
     performanceTimer := None; reconnectAttempts := 0%N;
     reconnectTimer := None; isIntentionalDisconnect := false;
     env := {| fresh := O; timeouts := []; calls := []; trace := [];
               exited := None |} |}.

Definition fatal (text : string) (w : world) : world :=
  does (host_exit 1) (console_error text w).

Definition main (file : file_read) (b : build) (dex : bool) : world :=
  let (loaded, w) := loadConfig file initial in
  let w := set_config loaded w in
  match loaded with
  | None => fatal "Failed to load configuration" w
  | Some _ =>
      match initializeClient b w with
      | Throws w => fatal "Failed to start stream:" w
      | Returns w =>
          match startStream dex w with
          | Throws w => fatal "Failed to start stream:" w
          | Returns w => w
          end
      end
  end.

(** *** The event loop *)

(** What the host may deliver once start-up is over: an [error] or [end]
    event of a call that was opened, the firing of a pending timeout, the
    debounced change of the configuration file, or a termination signal.
    Each carries what the outside decides during its handler. *)
Inductive event : Type :=
| StreamError (stream : handle)
| StreamEnd (stream : handle)
| Timeout (timer : handle) (dex : bool)
| ConfigChanged (file : file_read) (b : build) (dex : bool)
| Signal.

Definition opened (s : handle) (w : world) : bool :=
  existsb (fun e => match e with
                    | DexTrades s' _ => Nat.eqb s' s
                    | _ => false
                    end) (trace (env w)).

Definition pending (t : handle) (w : world) : bool :=
  existsb (fun p => Nat.eqb (fst p) t) (timeouts (env w)).

(** One turn of the event loop.  An event that cannot happen (a call that
    was never opened, a timeout that is not pending, anything after the
    process has exited) leaves the world as it is. *)
Definition step (e : event) (w : world) : world :=
  match exited (env w) with
  | Some _ => w
  | None =>
      match e with
      | StreamError s => if opened s w then on_error w else w
      | StreamEnd s => if opened s w then on_end w else w
      | Timeout t dex =>
          if pending t w then reconnect dex (does (host_fire t) w) else w
      | ConfigChanged file b dex => reloadAndRestart file b dex w
      | Signal => on_signal w
      end
  end.

Definition run (events : list event) (w : world) : world :=
  fold_left (fun w e => step e w) events w.

(** The events that come from calls and timers. *)
Definition asynchronous (e : event) : bool :=
  match e with
  | StreamError _ | StreamEnd _ | Timeout _ _ => true
  | ConfigChanged _ _ _ | Signal => false
  end.

(** The delays of the timeouts set so far, in order. *)
Definition scheduled (w : world) : list Z :=
  flat_map (fun e => match e with
                     | SetTimeout _ delay => [delay]
                     | _ => []
                     end) (trace (env w)).

(** How many calls have been opened so far. *)
Definition starts (w : world) : nat :=
  List.length (filter (fun e => match e with
                                | DexTrades _ _ => true
                                | _ => false
                                end) (trace (env w))).

(** Every pending timeout is the one [reconnectTimer] names, and every
    open call is the one [currentStream] names. *)
Definition tracked (w : world) : bool :=
  forallb (fun p => match reconnectTimer w with
                    | Some t => Nat.eqb (fst p) t
                    | None => false
                    end) (timeouts (env w))
  && forallb (fun s => match currentStream w with
                       | Some s' => Nat.eqb s s'
                       | None => false
                       end) (calls (env w)).

(** A configuration to run the supervisor on, the world after a start-up
    that succeeded, and the world after the stream then failed. *)
Definition sample_config : Config :=
  {| server := {| address := "corecast.bitquery.io";
                  authorization := "token"; insecure := None |};
     filters := {| programs := ["LanMV9sAd7wArD4vJFi2qDdfnVhFxYSUg6eADduJ3uj"];
                   pool := []; traders := []; signers := [] |} |}.

Definition streaming : world := main (Parsed (Some sample_config)) Built true.

Definition reconnecting : world := step (StreamError 0%nat) streaming.

(** The same filters on another server. *)
Definition retargeted : Config :=
  {| server := {| address := "other.example.org"; authorization := "token";
                  insecure := None |};
     filters := filters sample_config |}.

(** The stream fails, and each of the five attempts that follow fails
    too: [client.DexTrades] throws every time.  The handles are the ones
    the host hands out on this run. *)
Definition six_failures : list event :=
  [StreamError 0%nat; Timeout 2%nat false; Timeout 3%nat false;
   Timeout 4%nat false; Timeout 5%nat false; Timeout 6%nat false].

(** The three situations the supervisor is in between events: nothing
    open and nothing pending; one open call, which [currentStream] names;
    one pending timeout, which [reconnectTimer] names. *)
Inductive shape (w : world) : Prop :=
| Idle :
    timeouts (env w) = [] -> calls (env w) = [] -> shape w
| Streaming (s : handle) :
    timeouts (env w) = [] -> calls (env w) = [s] ->
    currentStream w = Some s -> shape w
| ReconnectPending (t : handle) (delay : Z) :
    timeouts (env w) = [(t, delay)] -> calls (env w) = [] ->
    reconnectTimer w = Some t -> shape w.

(** Two worlds that agree on what decides reconnection: the flag of an
    intentional disconnect, the pending timeouts, and the delays of the
    timeouts set so far. *)
Definition same_backoff (w w' : world) : Prop :=
  isIntentionalDisconnect w' = isIntentionalDisconnect w /\
  timeouts (env w') = timeouts (env w) /\
  scheduled w' = scheduled w.

(** The pending reconnect timeout fires; [dex] as for [Timeout]. *)
Definition retry (dex : bool) (w : world) : world :=
  match timeouts (env w) with
  | (t, _) :: _ => step (Timeout t dex) w
  | [] => w
  end.

(** [k] attempts in a row at which [client.DexTrades] throws. *)
Fixpoint fail_again (k : nat) (w : world) : world :=
  match k with
  | O => w
  | S k' => fail_again k' (retry false w)
  end.

(** The delays the backoff yields for the counter values [n+1 .. n+k]. *)
Fixpoint delays_from (n : N) (k : nat) : list Z :=
  match k with
  | O => []
  | S k' => getReconnectDelay (N.succ n) :: delays_from (N.succ n) k'
  end.

(** How many clients have been constructed so far. *)
Definition built (w : world) : nat :=
  List.length (filter (fun e => match e with
                                | NewCoreCast _ => true
                                | _ => false
                                end) (trace (env w))).

(** Two worlds with the same configuration, client, reload flag and exit
    status. *)
Definition same_setup (w w' : world) : Prop :=
  config w' = config w /\ client w' = client w /\
  isReloading w' = isReloading w /\ exited (env w') = exited (env w).

(** A supervisor that has not exited is outside any reload and has its
    configuration and its client. *)
Definition settled (w : world) : Prop :=
  exited (env w) = None ->
  isReloading w = false /\ config w <> None /\ client w <> None.

(** A delay between two seconds and the cap. *)
Definition in_range (d : Z) : Prop := 2000 <= d <= 30000.

(** Stopped on purpose, with no timeout pending. *)
Definition halted (w : world) : Prop :=
  isIntentionalDisconnect w = true /\ timeouts (env w) = [].

End Supervisor.

(** ** The two conversions on any argument *)

Module AnyInput.
Import Bytes.
Local Open Scope string_scope.

(** JavaScript does not type the argument of [toBase58].  The values a
    caller can pass: [undefined], [null], a boolean, a number (integers
    stand for the numbers; [NaN] behaves like 0 below, every other number
    like a non-zero integer), a string (given by its UTF-8 bytes), a
    [Buffer] or [Uint8Array], an array of integers, or a plain object. *)
Inductive value : Type :=
| VUndefined
| VNull
| VBool (b : bool)
| VNumber (z : Z)
| VString (utf8 : string)
| VBytes (data : list byte)
| VArray (items : list Z)
| VObject.

(** [!bytes] *)
Definition falsy (v : value) : bool :=
  match v with
  | VUndefined | VNull => true
  | VBool b => negb b
  | VNumber z => (z =? 0)%Z
  | VString EmptyString => true
  | VString (String _ _) => false
  | VBytes _ | VArray _ | VObject => false
  end.

(** [bytes.length === 0]: a boolean, a number and a plain object have no
    [length], and [undefined] is not 0. *)
Definition length_is_0 (v : value) : bool :=
  match v with
  | VString EmptyString | VBytes [] | VArray [] => true
  | _ => false
  end.

(** An array element as [Buffer.from] stores it: modulo 256. *)
Definition to_byte (z : Z) : byte :=
  match Byte.of_N (Z.to_N (z mod 256)) with
  | Some b => b
  | None => x00
  end.

(** [Buffer.from(bytes)]: the bytes of a string, of a byte sequence or of
    an array; a [TypeError] ([None]) for everything else. *)
Definition Buffer_from (v : value) : option (list byte) :=
  match v with
  | VString utf8 => Some (list_byte_of_string utf8)
  | VBytes data => Some data
  | VArray items => Some (List.map to_byte items)
  | VUndefined | VNull | VBool _ | VNumber _ | VObject => None
  end.

(** A call returns a string or throws. *)
Inductive outcome : Type :=
| Returned (text : string)
| Thrown.

Definition of_bytes_arg (bytes : bytes_arg) : value :=
  match bytes with
  | Undefined => VUndefined
  | Null => VNull
  | Buffer data => VBytes data
  end.


Section Encoder.

(** [bs58.encode] on any argument; [None] when it throws. *)
Variable bs58_encode : value -> option string.

(** [toBase58(bytes)] of the second program (lines 565-573) *)
Definition uncached_toBase58 (bytes : value) : outcome :=
  if falsy bytes || length_is_0 bytes then Returned "undefined"
  else
    match bs58_encode bytes with
    | Some encoded => Returned encoded
    | None => Returned "invalid_address"
    end.

(** [toBase58(bytes)] of the first program (lines 77-100): [Buffer.from]
    is called before the [try]. *)
Definition cached_toBase58 (bytes : value) (base58Cache : TradeFeed.Cache)
  : outcome * TradeFeed.Cache :=
  if falsy bytes || length_is_0 bytes
  then (Returned "undefined", base58Cache)
  else
    match Buffer_from bytes with
    | None => (Thrown, base58Cache)
    | Some buffer =>
        let cacheKey := hex buffer in
        match TradeFeed.cache_get cacheKey base58Cache with
        | Some cached => (Returned cached, base58Cache)
        | None =>
            match bs58_encode bytes with
            | Some result =>
                let evicted :=
                  if (TradeFeed.MAX_CACHE_SIZE
                      <=? TradeFeed.cache_size base58Cache)%N
                  then TradeFeed.cache_delete
                         (TradeFeed.cache_first_key base58Cache) base58Cache
                  else base58Cache in
                (Returned result, TradeFeed.cache_set cacheKey result evicted)
            | None => (Returned "invalid_address", base58Cache)
            end
        end
    end.

(** The cache after a sequence of calls, starting from the empty [Map]. *)
Definition cache_after (calls : list value) : TradeFeed.Cache :=
  fold_left (fun c bytes => snd (cached_toBase58 bytes c)) calls [].

(** The encoder on byte sequences alone. *)
Definition on_bytes (data : list byte) : option string :=
  bs58_encode (VBytes data).

End Encoder.


End AnyInput.

(* ===================================================================== *)
(** * Theorems *)
(* ===================================================================== *)

Module BackoffFacts.
Import Backoff.

Lemma pow2_pos (n : N) : 0 < 2 ^ Z.of_N n.
Proof. apply Z.pow_pos_nonneg; lia. Qed.

Lemma pow2_mono (m n : N) : (m <= n)%N -> 2 ^ Z.of_N m <= 2 ^ Z.of_N n.
Proof. intros H. apply Z.pow_le_mono_r; lia. Qed.

Lemma overflow_large : 30000 < OVERFLOW.
Proof. reflexivity. Qed.

(** The delay over the integers: the overflow to [Infinity] happens far
    above the cap, where the minimum is the cap either way. *)
Lemma delay_closed_form (n : N) :
  getReconnectDelay n = Z.min (1000 * 2 ^ Z.of_N n) 30000.
Proof.
  unfold getReconnectDelay, Math_pow2, times, Math_min,
    INITIAL_RECONNECT_DELAY, MAX_RECONNECT_DELAY.
  pose proof overflow_large as Hov.
  destruct (N.ltb_spec n 1024) as [Hn | Hn].
  - destruct (Z.ltb_spec (1000 * 2 ^ Z.of_N n) OVERFLOW) as [Hp | Hp].
    + reflexivity.
    + symmetry. apply Z.min_r. lia.
  - symmetry. apply Z.min_r.
    assert (2 ^ Z.of_N 1024 <= 2 ^ Z.of_N n) by (apply pow2_mono; exact Hn).
    change (2 ^ Z.of_N 1024) with OVERFLOW in H. lia.
Qed.

(** C1: for every attempt count [n] (a natural number), the delay
    computed by [getReconnectDelay] is
    [min (initialDelay * 2^n) maxDelay] with [initialDelay = 1000] and
    [maxDelay = 30000] milliseconds; the overflow of [Math.pow] to
    [Infinity] for huge [n] does not change that. *)
Theorem getReconnectDelay_formula (n : N) :
  INITIAL_RECONNECT_DELAY = 1000 /\ MAX_RECONNECT_DELAY = 30000 /\
  getReconnectDelay n =
    spec_delay INITIAL_RECONNECT_DELAY MAX_RECONNECT_DELAY n.
Proof.
  repeat split. unfold spec_delay. apply delay_closed_form.
Qed.

(** C8: the delay is monotonically non-decreasing in the attempt
    count. *)
Theorem getReconnectDelay_monotone (m n : N) :
  (m <= n)%N -> getReconnectDelay m <= getReconnectDelay n.
Proof.
  intros H. rewrite !delay_closed_form.
  pose proof (pow2_mono m n H). lia.
Qed.

Lemma getReconnectDelay_monotone_witness :
  (3 <= 7)%N /\ getReconnectDelay 3 <= getReconnectDelay 7.
Proof.
  split; [lia | apply (getReconnectDelay_monotone 3 7); lia].
Defined.

End BackoffFacts.

(** ** Address conversion *)

Module Base58Facts.
Import Bytes.
Local Open Scope string_scope.

Lemma unhex_hex_byte (b : byte) :
  unhex_byte (hex_digit (Byte.to_N b / 16)) (hex_digit (Byte.to_N b mod 16))
  = Some b.
Proof. destruct b; reflexivity. Qed.

Lemma hex_byte_inj (a b : byte) (s t : string) :
  hex_byte a s = hex_byte b t -> a = b /\ s = t.
Proof.
  unfold hex_byte. intros H. injection H as Hhi Hlo Hrest.
  split; [| exact Hrest].
  pose proof (unhex_hex_byte a) as Ha. pose proof (unhex_hex_byte b) as Hb.
  rewrite Hhi, Hlo in Ha. congruence.
Qed.

(** Two byte strings with the same hexadecimal key are equal. *)
Lemma hex_inj : forall data data', hex data = hex data' -> data = data'.
Proof.
  induction data as [| b data IH]; intros [| b' data'] H.
  - reflexivity.
  - discriminate H.
  - discriminate H.
  - cbn [hex] in H. apply hex_byte_inj in H as [-> H].
    f_equal. apply IH. exact H.
Qed.

Section Encoder.
Variable bs58_encode : list byte -> option string.

Local Abbreviation uncached := (Supervisor.toBase58 bs58_encode).
Local Abbreviation cached := (TradeFeed.toBase58 bs58_encode).
Local Abbreviation sound := (TradeFeed.sound bs58_encode).

Lemma cache_get_In key : forall c v,
  TradeFeed.cache_get key c = Some v -> In (key, v) c.
Proof.
  induction c as [| [k v'] c IH]; intros v H; cbn in H.
  - discriminate.
  - destruct (String.eqb_spec k key) as [-> | _].
    + injection H as ->. left. reflexivity.
    + right. apply IH. exact H.
Qed.

Lemma cache_delete_incl key c e :
  In e (TradeFeed.cache_delete key c) -> In e c.
Proof.
  destruct key as [key |]; cbn; [| auto].
  intros H. apply filter_In in H. tauto.
Qed.

Lemma cache_set_In key value : forall c e,
  In e (TradeFeed.cache_set key value c) -> e = (key, value) \/ In e c.
Proof.
  induction c as [| [k v] c IH]; intros e H; cbn in H.
  - destruct H as [<- | []]. left. reflexivity.
  - destruct (String.eqb_spec k key) as [-> | _].
    + destruct H as [<- | H]; [left; reflexivity | right; right; exact H].
    + destruct H as [<- | H]; [right; left; reflexivity |].
      apply IH in H. destruct H; [left | right; right]; assumption.
Qed.

Lemma sound_nil : sound [].
Proof. intros k v []. Qed.

Lemma toBase58_sound bytes c : sound c -> sound (snd (cached bytes c)).
Proof.
  intros Hc. unfold cached, TradeFeed.toBase58.
  destruct (not_ bytes || (length_ bytes =? 0)%N); [exact Hc |].
  destruct (TradeFeed.cache_get _ c); [exact Hc |].
  destruct (bs58_encode (data_of bytes)) as [result |] eqn:He; [| exact Hc].
  cbn [snd]. intros k v H. apply cache_set_In in H as [H | H].
  - injection H as -> ->. exists (data_of bytes). auto.
  - apply Hc. destruct (_ <=? _)%N; [| exact H].
    eapply cache_delete_incl. exact H.
Qed.

Lemma fold_sound calls : forall c,
  sound c ->
  sound (fold_left (fun c bytes => snd (cached bytes c)) calls c).
Proof.
  induction calls as [| bytes calls IH]; intros c Hc; cbn.
  - exact Hc.
  - apply IH. apply toBase58_sound. exact Hc.
Qed.

Lemma cache_after_sound calls :
  sound (TradeFeed.cache_after bs58_encode calls).
Proof. apply fold_sound, sound_nil. Qed.

Lemma cached_uncached bytes c :
  sound c -> fst (cached bytes c) = uncached bytes.
Proof.
  intros Hc. unfold cached, uncached, TradeFeed.toBase58,
    Supervisor.toBase58.
  destruct (not_ bytes || (length_ bytes =? 0)%N); [reflexivity |].
  destruct (TradeFeed.cache_get _ c) as [v |] eqn:Hget.
  - apply cache_get_In, Hc in Hget as (data & Hkey & Henc).
    apply hex_inj in Hkey. rewrite Hkey, Henc. reflexivity.
  - destruct (bs58_encode (data_of bytes)); reflexivity.
Qed.

Lemma uncached_spec bytes : uncached bytes = spec_toBase58 bs58_encode bytes.
Proof.
  destruct bytes as [| | [| b data]]; reflexivity.
Qed.

End Encoder.

(** C9: whatever calls came before (whatever the cache holds by then),
    the cached conversion of the first program returns, for every input,
    the string the uncached conversion of the second program returns. *)
Theorem cached_toBase58_equiv
    (bs58_encode : list byte -> option string)
    (earlier : list bytes_arg) (bytes : bytes_arg) :
  fst (TradeFeed.toBase58 bs58_encode bytes
         (TradeFeed.cache_after bs58_encode earlier))
  = Supervisor.toBase58 bs58_encode bytes.
Proof.
  apply cached_uncached, cache_after_sound.
Qed.

(** On an input that is [null], [undefined] or a byte string, both
    conversions return the text [undefined] when the input is missing or
    empty, [invalid_address] when the encoder raises on a non-empty input,
    and the encoding otherwise; for the cached one, after any earlier
    calls. *)
Theorem toBase58_total
    (bs58_encode : list byte -> option string)
    (earlier : list bytes_arg) (bytes : bytes_arg) :
  Supervisor.toBase58 bs58_encode bytes = spec_toBase58 bs58_encode bytes /\
  fst (TradeFeed.toBase58 bs58_encode bytes
         (TradeFeed.cache_after bs58_encode earlier))
  = spec_toBase58 bs58_encode bytes.
Proof.
  split.
  - apply uncached_spec.
  - rewrite cached_uncached by apply cache_after_sound. apply uncached_spec.
Qed.

(** The seven bytes 18 04 37 3c f0 e6 42 are neither missing nor empty,
    and their base58 encoding is the text [undefined], so both conversions
    return [undefined] for them. *)
Lemma toBase58_undefined_not_exact :
  let bytes := Buffer [x18; x04; x37; x3c; xf0; xe6; x42] in
  Supervisor.toBase58 bs58 bytes = "undefined" /\
  fst (TradeFeed.toBase58 bs58 bytes []) = "undefined" /\
  not_ bytes = false /\ length_ bytes = 7%N /\
  ~ (Supervisor.toBase58 bs58 bytes = "undefined" <->
     bytes = Undefined \/ bytes = Null \/ bytes = Buffer []).
Proof.
  cbv zeta. repeat split; try reflexivity.
  intros [H _]. destruct (H eq_refl) as [H' | [H' | H']]; discriminate H'.
Qed.

End Base58Facts.

(** ** Address conversion on any argument *)

Module AnyInputFacts.
Import Bytes AnyInput.
Local Open Scope string_scope.

Section Encoder.
Variable bs58_encode : value -> option string.

Local Abbreviation uncached := (uncached_toBase58 bs58_encode).
Local Abbreviation cached := (cached_toBase58 bs58_encode).
Local Abbreviation sound := (TradeFeed.sound (on_bytes bs58_encode)).

(** On [null], [undefined] and byte sequences the two conversions are the
    ones of the modules [Supervisor] and [TradeFeed]. *)
Lemma uncached_of_bytes_arg (bytes : bytes_arg) :
  uncached (of_bytes_arg bytes)
  = Returned (Supervisor.toBase58 (on_bytes bs58_encode) bytes).
Proof.
  unfold uncached_toBase58, Supervisor.toBase58, on_bytes.
  destruct bytes as [| | [| b data]]; cbn; try reflexivity.
  destruct (bs58_encode _); reflexivity.
Qed.

Lemma cached_of_bytes_arg (bytes : bytes_arg) (c : TradeFeed.Cache) :
  cached (of_bytes_arg bytes) c
  = (Returned (fst (TradeFeed.toBase58 (on_bytes bs58_encode) bytes c)),
     snd (TradeFeed.toBase58 (on_bytes bs58_encode) bytes c)).
Proof.
  unfold cached_toBase58, TradeFeed.toBase58, on_bytes.
  destruct bytes as [| | [| b data]]; cbn; try reflexivity.
  destruct (TradeFeed.cache_get _ c); [reflexivity |].
  destruct (bs58_encode _); reflexivity.
Qed.







End Encoder.



End AnyInputFacts.

(** ** Start-up of the trade feed *)

Module TradeFeedFacts.
Import TradeFeed.
Local Open Scope string_scope.

Lemma includes_false (v : yaml) :
  v <> YStr "alltrades" -> v <> YStr "buys" -> v <> YStr "sells" ->
  includes ["alltrades"; "buys"; "sells"] v = false.
Proof.
  intros Ha Hb Hs. destruct v as [| | b | z | s |]; try reflexivity.
  cbn. destruct (String.eqb_spec s "alltrades") as [-> | _]; [congruence |].
  destruct (String.eqb_spec s "buys") as [-> | _]; [congruence |].
  destruct (String.eqb_spec s "sells") as [-> | _]; [congruence |].
  reflexivity.
Qed.

(** A falsy [trade_filter] (the empty string, 0, [false], [null], or no
    key at all) never reaches the validation: line 36 puts [alltrades] in
    its place, and start-up is the one of a configuration that says
    [alltrades]. *)
Lemma falsy_trade_filter_defaulted (v : vendor) (config : Config) :
  truthy (trade_filter config) = false ->
  tradeFilter config = YStr "alltrades" /\
  main v config = main v (with_trade_filter (YStr "alltrades") config).
Proof.
  intros Hf.
  assert (Hd : tradeFilter config = YStr "alltrades")
    by (unfold tradeFilter, or_; rewrite Hf; reflexivity).
  split; [exact Hd |].
  unfold main. rewrite Hd. reflexivity.
Qed.

(** C7, as amended: when [trade_filter] is configured with a truthy value
    (a non-empty string, a non-zero number, [true], a sequence or a
    mapping) that is not one of [alltrades], [buys] and [sells], start-up
    reports the error and exits with status 1, and no stream has been
    opened. *)
Theorem invalid_trade_filter_fatal (v : vendor) (config : Config) :
  truthy (trade_filter config) = true ->
  trade_filter config <> YStr "alltrades" ->
  trade_filter config <> YStr "buys" ->
  trade_filter config <> YStr "sells" ->
  main v config = ([ConsoleError "Invalid trade_filter"], Exited 1) /\
  existsb is_subscribe (fst (main v config)) = false /\
  (1 <> 0)%Z.
Proof.
  intros Ht Ha Hb Hs.
  assert (Hmain : main v config
                  = ([ConsoleError "Invalid trade_filter"], Exited 1)).
  { unfold main, tradeFilter, or_. rewrite Ht.
    rewrite (includes_false _ Ha Hb Hs). reflexivity. }
  rewrite Hmain. repeat split. discriminate.
Qed.

Lemma invalid_trade_filter_fatal_witness :
  main cooperative (sample_config (YStr "both"))
  = ([ConsoleError "Invalid trade_filter"], Exited 1) /\
  existsb is_subscribe (fst (main cooperative (sample_config (YStr "both"))))
  = false /\
  (1 <> 0)%Z.
Proof.
  apply (invalid_trade_filter_fatal cooperative (sample_config (YStr "both")));
    [reflexivity | discriminate | discriminate | discriminate].
Defined.

(** C7, as stated, fails: with [trade_filter] configured as the empty
    string, which is none of the three names, the default [alltrades]
    takes its place, the stream is opened and the process keeps running. *)
Lemma empty_trade_filter_starts :
  let config := sample_config (YStr EmptyString) in
  trade_filter config <> YStr "alltrades" /\
  trade_filter config <> YStr "buys" /\
  trade_filter config <> YStr "sells" /\
  snd (main cooperative config) = Running /\
  existsb is_subscribe (fst (main cooperative config)) = true /\
  ~ (exists code, snd (main cooperative config) = Exited code /\ code <> 0%Z).
Proof.
  cbv zeta. repeat split; try discriminate; try reflexivity.
  intros (code & H & _). discriminate H.
Qed.

End TradeFeedFacts.

(** ** The supervisor *)

Module SupervisorFacts.
Import Backoff Supervisor.
Local Open Scope string_scope.

Ltac open_world w :=
  destruct w as [cfg cl md cs rl pt ra rt itl [fr ts cls tr ex]].

(** *** What [stopStream] leaves behind *)

Lemma forallb_never {A} (l : list A) :
  forallb (fun _ => false) l = true -> l = [].
Proof. destruct l; [reflexivity | discriminate]. Qed.

Lemma without_timer_all t l :
  forallb (fun p : handle * Z => Nat.eqb (fst p) t) l = true ->
  without_timer t l = [].
Proof.
  unfold without_timer.
  induction l as [| p l IH]; cbn [forallb filter]; [reflexivity |].
  intros H. apply andb_prop in H as [Hp Hl]. rewrite Hp. cbn [negb]. auto.
Qed.

Lemma without_call_all s l :
  forallb (fun s' : handle => Nat.eqb s' s) l = true -> without_call s l = [].
Proof.
  unfold without_call.
  induction l as [| p l IH]; cbn [forallb filter]; [reflexivity |].
  intros H. apply andb_prop in H as [Hp Hl]. rewrite Hp. cbn [negb]. auto.
Qed.

Lemma stopStream_vars intentional w :
  let w' := stopStream intentional w in
  isIntentionalDisconnect w' = intentional /\
  currentStream w' = None /\ performanceTimer w' = None /\
  reconnectTimer w' = None /\
  config w' = config w /\ client w' = client w /\
  metadata w' = metadata w /\ isReloading w' = isReloading w /\
  reconnectAttempts w' = reconnectAttempts w /\
  exited (env w') = exited (env w).
Proof.
  open_world w. destruct cs, pt, rt; cbn; repeat split; reflexivity.
Qed.

Lemma stopStream_clears intentional w :
  tracked w = true ->
  timeouts (env (stopStream intentional w)) = [] /\
  calls (env (stopStream intentional w)) = [].
Proof.
  open_world w. unfold tracked. cbn. intros H.
  apply andb_prop in H as [Ht Hc].
  assert (Hts : match rt with
                | Some t => without_timer t ts
                | None => ts
                end = []).
  { destruct rt; [apply without_timer_all | apply forallb_never]; exact Ht. }
  assert (Hcs : match cs with
                | Some s => without_call s cls
                | None => cls
                end = []).
  { destruct cs; [apply without_call_all | apply forallb_never]; exact Hc. }
  destruct cs, pt, rt; cbn; split; assumption.
Qed.

Lemma stopStream_again w :
  stopStream true (stopStream true w) = stopStream true w.
Proof.
  open_world w. destruct cs, pt, rt; reflexivity.
Qed.

(** Once the disconnect is intentional and no timeout is pending, no call
    or timer event does anything. *)
Lemma step_quiet e w :
  isIntentionalDisconnect w = true -> timeouts (env w) = [] ->
  asynchronous e = true -> step e w = w.
Proof.
  intros Hi Ht He. unfold step. destruct (exited (env w)); [reflexivity |].
  destruct e as [s | s | t dex | |]; try discriminate He.
  - unfold on_error. rewrite Hi, andb_false_r.
    destruct (opened s w); reflexivity.
  - unfold on_end. rewrite Hi, andb_false_r.
    destruct (opened s w); reflexivity.
  - unfold pending. rewrite Ht. reflexivity.
Qed.

Lemma run_quiet events : forall w,
  isIntentionalDisconnect w = true -> timeouts (env w) = [] ->
  forallb asynchronous events = true -> run events w = w.
Proof.
  induction events as [| e events IH]; intros w Hi Ht He; cbn.
  - reflexivity.
  - cbn in He. apply andb_prop in He as [He Hes].
    rewrite (step_quiet e w Hi Ht He). apply IH; assumption.
Qed.

(** *** The situations are kept by every event *)

Arguments getReconnectDelay : simpl never.

Ltac shaped :=
  first [ apply Idle; reflexivity
        | eapply Streaming; reflexivity
        | eapply ReconnectPending; reflexivity ].

Lemma shape_tracked w : shape w -> tracked w = true.
Proof.
  unfold tracked.
  intros [Ht Hc | s Ht Hc Hcs | t d Ht Hc Hrt]; rewrite Ht, Hc;
    rewrite ?Hcs, ?Hrt; cbn; rewrite ?Nat.eqb_refl; reflexivity.
Qed.

Lemma shape_emit e w : shape w -> shape (does (emit e) w).
Proof.
  intros [Ht Hc | s Ht Hc Hcs | t d Ht Hc Hrt];
    [apply Idle | eapply Streaming | eapply ReconnectPending]; eassumption.
Qed.

Lemma stopStream_quiet intentional w :
  shape w ->
  timeouts (env (stopStream intentional w)) = [] /\
  calls (env (stopStream intentional w)) = [].
Proof. intros Hs. apply stopStream_clears, shape_tracked, Hs. Qed.

Lemma attemptReconnect_shape w :
  timeouts (env w) = [] -> calls (env w) = [] -> shape (attemptReconnect w).
Proof.
  open_world w. cbn. intros -> ->. unfold attemptReconnect. cbn.
  destruct itl, rl; cbn; shaped.
Qed.

Lemma startStream_shape dex w :
  timeouts (env w) = [] -> calls (env w) = [] ->
  match startStream dex w with
  | Returns w' => shape w'
  | Throws w' => w' = w
  end.
Proof.
  open_world w. cbn. intros -> ->. unfold startStream. cbn.
  destruct cl, cfg, dex; cbn; try reflexivity.
  destruct pt; cbn; shaped.
Qed.

Lemma reconnect_shape dex w :
  timeouts (env w) = [] -> calls (env w) = [] -> shape (reconnect dex w).
Proof.
  intros Ht Hc. unfold reconnect.
  pose proof (startStream_shape dex (console_log "Attempting to reconnect..." w)
                Ht Hc) as H.
  destruct (startStream dex _) as [w' | w']; [exact H | subst w'].
  apply attemptReconnect_shape; assumption.
Qed.

Lemma fire_quiet t w :
  shape w -> pending t w = true ->
  timeouts (env (does (host_fire t) w)) = [] /\
  calls (env (does (host_fire t) w)) = [].
Proof.
  unfold pending. cbn.
  intros [Ht Hc | s Ht Hc Hcs | t' d Ht Hc Hrt]; rewrite Ht, Hc; cbn;
    try discriminate.
  rewrite orb_false_r. intros ->. auto.
Qed.

Lemma on_error_shape w : shape w -> shape (on_error w).
Proof.
  intros Hs. unfold on_error.
  destruct (negb (isReloading w) && negb (isIntentionalDisconnect w));
    [| exact Hs].
  apply attemptReconnect_shape; apply stopStream_quiet;
    do 2 apply shape_emit; exact Hs.
Qed.

Lemma on_end_shape w : shape w -> shape (on_end w).
Proof.
  intros Hs. unfold on_end.
  destruct (negb (isReloading w) && negb (isIntentionalDisconnect w));
    [| exact Hs].
  apply attemptReconnect_shape; apply stopStream_quiet;
    apply shape_emit; exact Hs.
Qed.

Lemma shape_ext w w' :
  timeouts (env w') = timeouts (env w) -> calls (env w') = calls (env w) ->
  currentStream w' = currentStream w -> reconnectTimer w' = reconnectTimer w ->
  shape w -> shape w'.
Proof.
  intros Et Ec Ecs Ert [Ht Hc | s Ht Hc Hcs | t d Ht Hc Hrt];
    [apply Idle | apply (Streaming _ s) | apply (ReconnectPending _ t d)];
    congruence.
Qed.

Lemma initializeClient_env b w :
  match initializeClient b w with
  | Returns w' | Throws w' =>
      timeouts (env w') = timeouts (env w) /\ calls (env w') = calls (env w)
  end.
Proof.
  unfold initializeClient. destruct (config w); [| auto].
  destruct b; cbn; auto.
Qed.

Lemma reload_shape file b dex w : shape w -> shape (reload file b dex w).
Proof.
  intros Hs. unfold reload.
  destruct file as [| [newConfig |]]; cbn [loadConfig];
    try (eapply shape_ext; [.. | exact Hs]; reflexivity).
  destruct (config w) as [oldConfig |];
    [| eapply shape_ext; [.. | exact Hs]; reflexivity].
  destruct (stopStream_quiet true w Hs) as [Ht Hc].
  set (stopped := set_config (Some newConfig) (stopStream true w)).
  assert (Hq : timeouts (env stopped) = [] /\ calls (env stopped) = [])
    by (split; assumption).
  clearbody stopped.
  assert (Hinit : match (if hasServerConfigChanged oldConfig newConfig
                         then initializeClient b stopped
                         else Returns stopped) with
                  | Returns w' | Throws w' =>
                      timeouts (env w') = [] /\ calls (env w') = []
                  end).
  { destruct (hasServerConfigChanged oldConfig newConfig); [| exact Hq].
    pose proof (initializeClient_env b stopped) as H.
    destruct (initializeClient b stopped); destruct Hq as [<- <-]; exact H. }
  destruct (if hasServerConfigChanged oldConfig newConfig
            then initializeClient b stopped else Returns stopped)
    as [w1 | w1]; destruct Hinit as [Ht1 Hc1].
  - pose proof (startStream_shape dex w1 Ht1 Hc1) as H.
    destruct (startStream dex w1) as [w2 | w2].
    + eapply shape_ext; [.. | exact H]; reflexivity.
    + subst w2. apply Idle; assumption.
  - apply Idle; assumption.
Qed.

Lemma step_shape e w : shape w -> shape (step e w).
Proof.
  intros Hs. unfold step. destruct (exited (env w)); [exact Hs |].
  destruct e as [s | s | t dex | file b dex |].
  - destruct (opened s w); [apply on_error_shape |]; exact Hs.
  - destruct (opened s w); [apply on_end_shape |]; exact Hs.
  - destruct (pending t w) eqn:Hp; [| exact Hs].
    destruct (fire_quiet t w Hs Hp). apply reconnect_shape; assumption.
  - unfold reloadAndRestart. destruct (isReloading w); [exact Hs |].
    apply reload_shape. eapply shape_ext; [.. | exact Hs]; reflexivity.
  - unfold on_signal.
    destruct (stopStream_quiet true
                (console_log "Shutting down gracefully..." w)
                (shape_emit _ w Hs)).
    apply Idle; assumption.
Qed.

Lemma main_shape file b dex : shape (main file b dex).
Proof.
  unfold main.
  destruct file as [| [cfg |]]; cbn [loadConfig]; try (apply Idle; reflexivity).
  set (w := set_config (Some cfg) initial).
  pose proof (initializeClient_env b w) as H.
  destruct (initializeClient b w) as [w1 | w1]; destruct H as [Ht Hc];
    [| apply Idle; assumption].
  pose proof (startStream_shape dex w1 Ht Hc) as H.
  destruct (startStream dex w1) as [w2 | w2]; [exact H |].
  subst w2. apply Idle; assumption.
Qed.

Lemma run_shape events : forall w, shape w -> shape (run events w).
Proof.
  induction events as [| e events IH]; intros w Hs; cbn; [exact Hs |].
  apply IH, step_shape, Hs.
Qed.

(** Whatever the start-up and the events that followed, [reconnectTimer]
    and [currentStream] name what is pending and open: every world the
    program reaches is [tracked]. *)
Lemma reachable_tracked file b dex events :
  tracked (run events (main file b dex)) = true.
Proof. apply shape_tracked, run_shape, main_shape. Qed.

(** *** Backoff as the supervisor applies it *)

Lemma scheduled_emit e w :
  scheduled (does (emit e) w)
  = (scheduled w ++ match e with SetTimeout _ d => [d] | _ => [] end)%list.
Proof.
  unfold scheduled. cbn. rewrite flat_map_app. cbn [flat_map].
  rewrite app_nil_r. reflexivity.
Qed.

Lemma stopStream_scheduled intentional w :
  scheduled (stopStream intentional w) = scheduled w.
Proof.
  open_world w. unfold scheduled.
  destruct cs, pt, rt; cbn; rewrite ?flat_map_app; cbn;
    rewrite ?app_nil_r; reflexivity.
Qed.

Lemma attemptReconnect_scheduled w :
  isReloading w = false -> isIntentionalDisconnect w = false ->
  scheduled (attemptReconnect w)
  = (scheduled w ++ [getReconnectDelay (N.succ (reconnectAttempts w))])%list.
Proof.
  open_world w. cbn. intros -> ->. unfold scheduled. cbn.
  rewrite !flat_map_app. cbn. rewrite app_nil_r. reflexivity.
Qed.

Lemma on_error_scheduled w :
  isReloading w = false -> isIntentionalDisconnect w = false ->
  scheduled (on_error w)
  = (scheduled w ++ [getReconnectDelay (N.succ (reconnectAttempts w))])%list.
Proof.
  intros Hr Hi. unfold on_error. rewrite Hr, Hi. cbn [negb andb].
  destruct (stopStream_vars false
              (console_error "Error code:" (console_error "Stream error:" w)))
    as (Hi' & _ & _ & _ & _ & _ & _ & Hr' & Ha' & _).
  rewrite attemptReconnect_scheduled by (rewrite ?Hr', ?Hi'; auto).
  rewrite Ha', stopStream_scheduled. unfold console_error, console_log.
  rewrite !scheduled_emit, !app_nil_r. reflexivity.
Qed.

Lemma on_end_scheduled w :
  isReloading w = false -> isIntentionalDisconnect w = false ->
  scheduled (on_end w)
  = (scheduled w ++ [getReconnectDelay (N.succ (reconnectAttempts w))])%list.
Proof.
  intros Hr Hi. unfold on_end. rewrite Hr, Hi. cbn [negb andb].
  destruct (stopStream_vars false
              (console_log "Stream ended unexpectedly" w))
    as (Hi' & _ & _ & _ & _ & _ & _ & Hr' & Ha' & _).
  rewrite attemptReconnect_scheduled by (rewrite ?Hr', ?Hi'; auto).
  rewrite Ha', stopStream_scheduled. unfold console_error, console_log.
  rewrite !scheduled_emit, !app_nil_r. reflexivity.
Qed.

Lemma startStream_resets dex w w' :
  startStream dex w = Returns w' -> reconnectAttempts w' = 0%N.
Proof.
  unfold startStream.
  destruct (client w), (config w), dex; try discriminate.
  cbn. destruct (performanceTimer w); intros H; injection H as <-; reflexivity.
Qed.

(** C2, on the code: after a start-up that succeeded the counter is 0;
    when the stream then fails and the five attempts that follow fail as
    well, the six delays set are 2000, 4000, 8000, 16000, 30000 and 30000
    milliseconds, not 1000, ..., 30000: the counter is incremented before
    the delay is computed.  A sixth failed attempt sets 30000 once more. *)
Theorem six_failures_delays (cfg : Config) :
  let w0 := main (Parsed (Some cfg)) Built true in
  reconnectAttempts w0 = 0%N /\
  scheduled w0 = [] /\
  scheduled (run six_failures w0) = [2000; 4000; 8000; 16000; 30000; 30000] /\
  scheduled (run six_failures w0) <> [1000; 2000; 4000; 8000; 16000; 30000] /\
  scheduled (run (six_failures ++ [Timeout 7%nat false]) w0)
  = [2000; 4000; 8000; 16000; 30000; 30000; 30000].
Proof.
  vm_compute. repeat split. discriminate.
Qed.

(** C3, on the code: a start that succeeds resets the counter to 0, and
    the delay set at the next failure (an [error] or an [end] of the
    stream) is 2000 milliseconds, the delay for one attempt, while the delay
    for zero attempts is 1000. *)
Theorem first_delay_after_start (dex : bool) (w w' : world) :
  startStream dex w = Returns w' ->
  isReloading w' = false -> isIntentionalDisconnect w' = false ->
  reconnectAttempts w' = 0%N /\
  scheduled (on_error w') = (scheduled w' ++ [2000])%list /\
  scheduled (on_end w') = (scheduled w' ++ [2000])%list /\
  getReconnectDelay 0 = 1000.
Proof.
  intros Hstart Hr Hi.
  pose proof (startStream_resets dex w w' Hstart) as H0.
  rewrite on_error_scheduled, on_end_scheduled, H0 by assumption.
  repeat split.
Qed.

Lemma first_delay_after_start_witness :
  reconnectAttempts streaming = 0%N /\
  scheduled (on_error streaming) = (scheduled streaming ++ [2000])%list /\
  scheduled (on_end streaming) = (scheduled streaming ++ [2000])%list /\
  getReconnectDelay 0 = 1000.
Proof.
  apply (first_delay_after_start true
           (set_metadata (Some [("authorization", "token")])
              (set_client (Some "corecast.bitquery.io")
                 (does (emit (NewCoreCast "corecast.bitquery.io"))
                    (set_config (Some sample_config) initial))))
           streaming); vm_compute; reflexivity.
Defined.

(** *** Reloading *)

Lemma initializeClient_frame b w :
  match initializeClient b w with
  | Returns w' | Throws w' =>
      config w' = config w /\ isReloading w' = isReloading w
  end.
Proof.
  unfold initializeClient. destruct (config w) eqn:Hc; [| auto].
  destruct b; cbn; auto.
Qed.

Lemma startStream_frame dex w :
  match startStream dex w with
  | Returns w' | Throws w' =>
      config w' = config w /\ isReloading w' = isReloading w
  end.
Proof.
  unfold startStream. destruct (client w), (config w) eqn:Hc, dex; auto.
  cbn. destruct (performanceTimer w); cbn; auto.
Qed.

Lemma reload_guard file b dex w :
  isReloading w = true -> reloadAndRestart file b dex w = w.
Proof. intros H. unfold reloadAndRestart. rewrite H. reflexivity. Qed.

Lemma reload_target oldConfig target b dex w :
  config w = Some oldConfig ->
  config (reload (Parsed (Some target)) b dex w) = Some target /\
  isReloading (reload (Parsed (Some target)) b dex w) = false.
Proof.
  intros Hc. unfold reload. cbn [loadConfig]. rewrite Hc.
  set (stopped := set_config (Some target) (stopStream true w)).
  assert (Hs : config stopped = Some target) by reflexivity.
  clearbody stopped.
  assert (Hinit : match (if hasServerConfigChanged oldConfig target
                         then initializeClient b stopped
                         else Returns stopped) with
                  | Returns w' | Throws w' => config w' = Some target
                  end).
  { destruct (hasServerConfigChanged oldConfig target); [| exact Hs].
    pose proof (initializeClient_frame b stopped) as H.
    destruct (initializeClient b stopped); destruct H as [H _]; congruence. }
  destruct (if hasServerConfigChanged oldConfig target
            then initializeClient b stopped else Returns stopped)
    as [w1 | w1]; [| split; [exact Hinit | reflexivity]].
  pose proof (startStream_frame dex w1) as H.
  destruct (startStream dex w1) as [w2 | w2]; destruct H as [H _];
    split; solve [cbn; congruence | reflexivity].
Qed.

(** C5: while a reload is in flight ([isReloading] is set), a further
    request returns at once and changes nothing: it is dropped, and
    nothing remembers it.  The first reload then runs exactly as it would
    have alone, and when its file loads, the configuration at its end is
    the one it loaded. *)
Theorem overlapping_reload_dropped
    (w : world) (oldConfig target : Config) (b1 : build) (dex1 : bool)
    (file2 : file_read) (b2 : build) (dex2 : bool) :
  isReloading w = false ->
  config w = Some oldConfig ->
  let first := reloadAndRestart (Parsed (Some target)) b1 dex1 in
  let second := reloadAndRestart file2 b2 dex2 in
  let inflight := set_isReloading true w in
  second inflight = inflight /\
  (forall m, isReloading m = true -> second m = m) /\
  reload (Parsed (Some target)) b1 dex1 (second inflight) = first w /\
  config (first w) = Some target /\
  isReloading (first w) = false.
Proof.
  intros Hr Hc first second inflight.
  assert (Hdrop : forall m, isReloading m = true -> second m = m)
    by (intros m Hm; apply reload_guard; exact Hm).
  assert (Hfirst : first w = reload (Parsed (Some target)) b1 dex1 inflight)
    by (unfold first, reloadAndRestart; rewrite Hr; reflexivity).
  split; [apply Hdrop; reflexivity |].
  split; [exact Hdrop |].
  split; [rewrite Hdrop by reflexivity; symmetry; exact Hfirst |].
  rewrite Hfirst. apply (reload_target oldConfig). exact Hc.
Qed.

(** C6: when the new configuration fails to load (the file cannot be read
    or parsed, or the document is empty), [reloadAndRestart] only writes to
    the error console: the configuration, the client, the current stream,
    the open calls, the pending timeouts and every other variable are as
    before, no timeout is set (no retry) and no stream is started. *)
Theorem failed_reload_keeps_state
    (file : file_read) (b : build) (dex : bool) (w : world) :
  fst (loadConfig file w) = None ->
  let w' := reloadAndRestart file b dex w in
  config w' = config w /\ client w' = client w /\
  metadata w' = metadata w /\ currentStream w' = currentStream w /\
  isReloading w' = isReloading w /\
  performanceTimer w' = performanceTimer w /\
  reconnectAttempts w' = reconnectAttempts w /\
  reconnectTimer w' = reconnectTimer w /\
  isIntentionalDisconnect w' = isIntentionalDisconnect w /\
  calls (env w') = calls (env w) /\ timeouts (env w') = timeouts (env w) /\
  exited (env w') = exited (env w) /\
  (exists errors,
     trace (env w') = (trace (env w) ++ List.map ConsoleError errors)%list) /\
  scheduled w' = scheduled w /\ starts w' = starts w.
Proof.
  intros Hload w'. subst w'. unfold reloadAndRestart.
  destruct (isReloading w) eqn:Hr.
  - repeat split; try reflexivity; try exact Hr.
    exists []. cbn [List.map]. rewrite app_nil_r. reflexivity.
  - unfold reload.
    destruct file as [| [newConfig |]]; cbn in Hload; try discriminate Hload;
      cbn [loadConfig]; unfold console_error, scheduled, starts; cbn;
      rewrite ?Hr, <- ?app_assoc, ?flat_map_app, ?filter_app, ?length_app;
      cbn; rewrite ?app_nil_r, ?Nat.add_0_r;
      repeat split; try reflexivity.
    + exists ["Failed to load configuration:";
              "Failed to reload configuration, keeping current settings"].
      reflexivity.
    + exists ["Failed to reload configuration, keeping current settings"].
      reflexivity.
Qed.

Lemma overlapping_reload_dropped_witness :
  let target :=
    {| server := server sample_config;
       filters := {| programs := []; pool := ["pool"]; traders := [];
                     signers := [] |} |} in
  let first := reloadAndRestart (Parsed (Some target)) Built true in
  let second := reloadAndRestart Unreadable Built true in
  let inflight := set_isReloading true streaming in
  second inflight = inflight /\
  (forall m, isReloading m = true -> second m = m) /\
  reload (Parsed (Some target)) Built true (second inflight)
  = first streaming /\
  config (first streaming) = Some target /\
  isReloading (first streaming) = false.
Proof.
  intros target.
  apply (overlapping_reload_dropped streaming sample_config target
           Built true Unreadable Built true); vm_compute; reflexivity.
Defined.

Lemma failed_reload_keeps_state_witness :
  let w' := reloadAndRestart Unreadable Built true streaming in
  config w' = config streaming /\ client w' = client streaming /\
  metadata w' = metadata streaming /\
  currentStream w' = currentStream streaming /\
  isReloading w' = isReloading streaming /\
  performanceTimer w' = performanceTimer streaming /\
  reconnectAttempts w' = reconnectAttempts streaming /\
  reconnectTimer w' = reconnectTimer streaming /\
  isIntentionalDisconnect w' = isIntentionalDisconnect streaming /\
  calls (env w') = calls (env streaming) /\
  timeouts (env w') = timeouts (env streaming) /\
  exited (env w') = exited (env streaming) /\
  (exists errors,
     trace (env w')
     = (trace (env streaming) ++ List.map ConsoleError errors)%list) /\
  scheduled w' = scheduled streaming /\ starts w' = starts streaming.
Proof.
  apply (failed_reload_keeps_state Unreadable Built true streaming).
  vm_compute. reflexivity.
Defined.

(** *** After a stop on purpose *)

Lemma same_backoff_refl w : same_backoff w w.
Proof. repeat split. Qed.

Lemma same_backoff_trans w1 w2 w3 :
  same_backoff w1 w2 -> same_backoff w2 w3 -> same_backoff w1 w3.
Proof. unfold same_backoff. intuition congruence. Qed.

Lemma same_backoff_emit e w :
  match e with SetTimeout _ _ => False | _ => True end ->
  same_backoff w (does (emit e) w).
Proof.
  intros He. repeat split. rewrite scheduled_emit.
  destruct e; try contradiction; apply app_nil_r.
Qed.

Lemma same_backoff_halted w w' : same_backoff w w' -> halted w -> halted w'.
Proof. unfold same_backoff, halted. intuition congruence. Qed.

Lemma initializeClient_backoff b w :
  match initializeClient b w with
  | Returns w' | Throws w' => same_backoff w w'
  end.
Proof.
  unfold initializeClient. destruct (config w); [| apply same_backoff_refl].
  destruct b; try apply same_backoff_refl;
    apply (same_backoff_emit (NewCoreCast _) w); exact I.
Qed.

Lemma startStream_backoff dex w :
  match startStream dex w with
  | Returns w' | Throws w' => same_backoff w w'
  end.
Proof.
  unfold startStream.
  destruct (client w), (config w), dex; try apply same_backoff_refl.
  unfold same_backoff, scheduled. cbn.
  destruct (performanceTimer w); cbn; rewrite !flat_map_app; cbn;
    rewrite !app_nil_r; repeat split.
Qed.

Lemma stopStream_halted w : halted w -> halted (stopStream true w).
Proof.
  intros [_ Ht]. split; [apply stopStream_vars |].
  revert Ht. open_world w. cbn. intros ->. destruct cs, pt, rt; reflexivity.
Qed.

Lemma reload_done stopped w x :
  halted stopped -> scheduled stopped = scheduled w ->
  same_backoff stopped x ->
  halted (set_isReloading false x) /\
  scheduled (set_isReloading false x) = scheduled w.
Proof.
  intros Hs Hd Hx. split.
  - apply (same_backoff_halted stopped); [exact Hx | exact Hs].
  - rewrite <- Hd. apply Hx.
Qed.

Lemma reload_halted file b dex w :
  halted w ->
  halted (reload file b dex w) /\
  scheduled (reload file b dex w) = scheduled w.
Proof.
  intros Hw. unfold reload.
  assert (Herr : forall text x,
             same_backoff x (console_error text x))
    by (intros text x; apply (same_backoff_emit (ConsoleError text)); exact I).
  destruct file as [| [newConfig |]]; cbn [loadConfig].
  - apply (reload_done w); [exact Hw | reflexivity |].
    eapply same_backoff_trans; apply Herr.
  - destruct (config w) as [oldConfig |].
    + set (stopped := set_config (Some newConfig) (stopStream true w)).
      assert (Hs : halted stopped) by (apply stopStream_halted, Hw).
      assert (Hd : scheduled stopped = scheduled w)
        by apply stopStream_scheduled.
      clearbody stopped.
      assert (Hinit : match (if hasServerConfigChanged oldConfig newConfig
                             then initializeClient b stopped
                             else Returns stopped) with
                      | Returns w' | Throws w' => same_backoff stopped w'
                      end).
      { destruct (hasServerConfigChanged oldConfig newConfig);
          [apply initializeClient_backoff | apply same_backoff_refl]. }
      destruct (if hasServerConfigChanged oldConfig newConfig
                then initializeClient b stopped else Returns stopped)
        as [w1 | w1].
      * pose proof (startStream_backoff dex w1) as H.
        destruct (startStream dex w1) as [w2 | w2];
          pose proof (same_backoff_trans _ _ _ Hinit H) as H2;
          apply (reload_done stopped); try assumption.
        eapply same_backoff_trans; [exact H2 | apply Herr].
      * apply (reload_done stopped); try assumption.
        eapply same_backoff_trans; [exact Hinit | apply Herr].
    + split; [exact Hw |]. unfold uncaught, scheduled. cbn.
      rewrite flat_map_app. apply app_nil_r.
  - apply (reload_done w); [exact Hw | reflexivity |]. apply Herr.
Qed.

Lemma step_halted e w :
  halted w -> halted (step e w) /\ scheduled (step e w) = scheduled w.
Proof.
  intros Hw. pose proof Hw as [Hi Ht]. unfold step.
  destruct (exited (env w)); [auto |].
  destruct e as [s | s | t dex | file b dex |].
  - unfold on_error. rewrite Hi, andb_false_r. destruct (opened s w); auto.
  - unfold on_end. rewrite Hi, andb_false_r. destruct (opened s w); auto.
  - unfold pending. rewrite Ht. auto.
  - unfold reloadAndRestart. destruct (isReloading w); [auto |].
    apply (reload_halted file b dex (set_isReloading true w)). exact Hw.
  - unfold on_signal.
    assert (Hl : halted (console_log "Shutting down gracefully..." w))
      by exact Hw.
    split; [apply (stopStream_halted _ Hl) |].
    unfold scheduled at 1. cbn. rewrite flat_map_app. cbn. rewrite app_nil_r.
    change (scheduled (stopStream true
                         (console_log "Shutting down gracefully..." w))
            = scheduled w).
    rewrite stopStream_scheduled. unfold console_log.
    rewrite scheduled_emit. apply app_nil_r.
Qed.

Lemma run_halted events : forall w,
  halted w -> halted (run events w) /\ scheduled (run events w) = scheduled w.
Proof.
  induction events as [| e events IH]; intros w Hw; [auto |].
  change (run (e :: events) w) with (run events (step e w)).
  destruct (step_halted e w Hw) as [Hs Hd].
  destruct (IH _ Hs) as [Hs' Hd']. split; [exact Hs' | congruence].
Qed.

(** A reload that loads its file stops the stream on purpose and starts
    the new one without clearing [isIntentionalDisconnect]: from then on
    the handlers of the new stream do nothing when it fails, and no
    reconnect is scheduled whatever happens. *)
Lemma reload_disables_reconnect
    (w : world) (oldConfig target : Config) (b : build) (dex : bool)
    (later : list event) :
  tracked w = true -> isReloading w = false -> config w = Some oldConfig ->
  let reloaded := reloadAndRestart (Parsed (Some target)) b dex w in
  isIntentionalDisconnect reloaded = true /\
  scheduled (run later reloaded) = scheduled reloaded.
Proof.
  intros Hw Hr Hc reloaded.
  assert (Hh : halted reloaded).
  { subst reloaded. unfold reloadAndRestart. rewrite Hr.
    unfold reload. cbn [loadConfig].
    change (config (set_isReloading true w)) with (config w). rewrite Hc.
    set (stopped := set_config (Some target)
                      (stopStream true (set_isReloading true w))).
    assert (Hs : halted stopped).
    { split; [apply stopStream_vars |].
      apply (stopStream_clears true (set_isReloading true w)). exact Hw. }
    clearbody stopped.
    assert (Hinit : match (if hasServerConfigChanged oldConfig target
                           then initializeClient b stopped
                           else Returns stopped) with
                    | Returns w' | Throws w' => same_backoff stopped w'
                    end).
    { destruct (hasServerConfigChanged oldConfig target);
        [apply initializeClient_backoff | apply same_backoff_refl]. }
    assert (Herr : forall text x, same_backoff x (console_error text x))
      by (intros text x; apply (same_backoff_emit (ConsoleError text));
          exact I).
    destruct (if hasServerConfigChanged oldConfig target
              then initializeClient b stopped else Returns stopped)
      as [w1 | w1].
    - pose proof (startStream_backoff dex w1) as H.
      destruct (startStream dex w1) as [w2 | w2];
        pose proof (same_backoff_trans _ _ _ Hinit H) as H2;
        apply (same_backoff_halted stopped); try exact Hs; try exact H2.
      eapply same_backoff_trans; [exact H2 | apply Herr].
    - apply (same_backoff_halted stopped); [| exact Hs].
      eapply same_backoff_trans; [exact Hinit | apply Herr]. }
  split; [apply Hh | apply run_halted, Hh].
Qed.

(** C4: in a world where [reconnectTimer] and [currentStream] name what is
    pending and open, [stopStream(true)] leaves no pending timeout and no
    open call.  Whatever happens afterwards, no reconnect is scheduled
    again; and as long as only call and timer events arrive, nothing
    happens at all (the world, trace included, stays as [stopStream] left
    it, so no stream is started).  Stopping once more changes nothing. *)
Theorem stop_is_final (w : world) (later : list event) :
  tracked w = true ->
  let stopped := stopStream true w in
  timeouts (env stopped) = [] /\
  calls (env stopped) = [] /\
  scheduled (run later stopped) = scheduled stopped /\
  (forallb asynchronous later = true ->
   run later stopped = stopped /\
   starts (run later stopped) = starts stopped) /\
  stopStream true stopped = stopped.
Proof.
  intros Hw stopped.
  destruct (stopStream_clears true w Hw) as [Ht Hc].
  destruct (stopStream_vars true w) as (Hi & _).
  repeat split; try assumption.
  - apply run_halted. split; assumption.
  - apply run_quiet; assumption.
  - rewrite run_quiet by assumption. reflexivity.
  - apply stopStream_again.
Qed.

Lemma stop_is_final_witness :
  timeouts (env reconnecting) = [(2%nat, 2000)] /\
  let later := [Timeout 2%nat true; StreamEnd 0%nat; StreamError 0%nat] in
  let stopped := stopStream true reconnecting in
  timeouts (env stopped) = [] /\
  calls (env stopped) = [] /\
  scheduled (run later stopped) = scheduled stopped /\
  (forallb asynchronous later = true ->
   run later stopped = stopped /\
   starts (run later stopped) = starts stopped) /\
  stopStream true stopped = stopped.
Proof.
  split; [vm_compute; reflexivity |].
  apply (stop_is_final reconnecting
           [Timeout 2%nat true; StreamEnd 0%nat; StreamError 0%nat]).
  vm_compute. reflexivity.
Defined.

End SupervisorFacts.

(* ===================================================================== *)
(** * Further properties of the code *)
(* ===================================================================== *)

(** ** The delay: range and cap *)

Module BackoffRange.
Import Backoff BackoffFacts.

Lemma small_counts (n : N) :
  (n < 5)%N -> n = 0%N \/ n = 1%N \/ n = 2%N \/ n = 3%N \/ n = 4%N.
Proof. lia. Qed.

Lemma pow2_from_5 (n : N) : (5 <= n)%N -> 32 <= 2 ^ Z.of_N n.
Proof.
  intros H. change 32 with (2 ^ Z.of_N 5). apply pow2_mono. exact H.
Qed.

(** The delay always lies between the initial delay and the cap; it is the
    cap exactly from five attempts on, and the plain doubling below. *)
Theorem delay_range_and_cap (n : N) :
  INITIAL_RECONNECT_DELAY <= getReconnectDelay n <= MAX_RECONNECT_DELAY /\
  (getReconnectDelay n = MAX_RECONNECT_DELAY <-> (5 <= n)%N) /\
  ((n < 5)%N -> getReconnectDelay n = INITIAL_RECONNECT_DELAY * 2 ^ Z.of_N n).
Proof.
  unfold INITIAL_RECONNECT_DELAY, MAX_RECONNECT_DELAY.
  rewrite delay_closed_form.
  destruct (N.lt_ge_cases n 5) as [Hlt | Hge].
  - assert (Hn : 1000 * 2 ^ Z.of_N n <= 16000 /\ 1000 <= 1000 * 2 ^ Z.of_N n).
    { destruct (small_counts n Hlt) as [-> | [-> | [-> | [-> | ->]]]];
        cbn; lia. }
    repeat split; try lia.
  - pose proof (pow2_from_5 n Hge). repeat split; try lia.
Qed.

End BackoffRange.

(** ** The supervisor between events *)

Module SupervisorMore.
Import Backoff Supervisor SupervisorFacts.
Local Open Scope string_scope.

(** Whatever the start-up and the events, at most one call is open and at
    most one reconnect timeout is pending, never both at once; the open
    call is the one [currentStream] holds and the pending timeout the one
    [reconnectTimer] holds. *)
Theorem one_call_or_one_timeout
    (file : file_read) (b : build) (dex : bool) (events : list event) :
  let w := run events (main file b dex) in
  (List.length (calls (env w)) <= 1)%nat /\
  (List.length (timeouts (env w)) <= 1)%nat /\
  (calls (env w) = [] \/ timeouts (env w) = []) /\
  (forall s, In s (calls (env w)) -> currentStream w = Some s) /\
  (forall t d, In (t, d) (timeouts (env w)) -> reconnectTimer w = Some t).
Proof.
  intros w.
  assert (Hs : shape w) by apply run_shape, main_shape.
  destruct Hs as [Ht Hc | s Ht Hc Hcs | t d Ht Hc Hrt]; rewrite Ht, Hc; cbn;
    repeat split; auto; try tauto.
  - intros s' [<- | []]. exact Hcs.
  - intros t' d' [H | []]. injection H as <- <-. exact Hrt.
Qed.

(** Start-up either leaves the process running with one open call, the
    counter at 0 and nothing scheduled, which happens exactly when the
    file loads, the client is built and the call is opened; or it ends the
    process with status 1, with no call open and no reconnect scheduled. *)
Theorem startup_runs_or_exits_1 (file : file_read) (b : build) (dex : bool) :
  let w := main file b dex in
  (exited (env w) = None <->
   (exists cfg, file = Parsed (Some cfg)) /\ b = Built /\ dex = true) /\
  (exited (env w) = None ->
   exists s, calls (env w) = [s] /\ currentStream w = Some s /\
             reconnectAttempts w = 0%N /\ scheduled w = []) /\
  (exited (env w) <> None ->
   exited (env w) = Some 1 /\ calls (env w) = [] /\
   timeouts (env w) = [] /\ scheduled w = []).
Proof.
  destruct file as [| [cfg |]]; [| destruct b, dex |]; cbn;
    (split; [split; [intros H; try discriminate H
                    | intros ((c & Hc) & Hb & Hd);
                      try discriminate Hc; try discriminate Hb;
                      try discriminate Hd]
            | split; [intros H; try discriminate H
                     | intros H; try (exfalso; apply H; reflexivity)]]);
    try (repeat split; reflexivity); eauto.
Qed.

Lemma run_exited events : forall w code,
  exited (env w) = Some code -> run events w = w.
Proof.
  induction events as [| e events IH]; intros w code H; [reflexivity |].
  change (run (e :: events) w) with (run events (step e w)).
  assert (Hstep : step e w = w) by (unfold step; rewrite H; reflexivity).
  rewrite Hstep. apply (IH w code H).
Qed.

(** A termination signal stops the stream on purpose and ends the process
    with status 0: no call stays open, no timeout stays pending, the
    configuration is untouched, and no event does anything afterwards. *)
Theorem signal_ends_with_status_0 (w : world) (later : list event) :
  tracked w = true -> exited (env w) = None ->
  let w' := step Signal w in
  exited (env w') = Some 0 /\
  calls (env w') = [] /\ timeouts (env w') = [] /\
  isIntentionalDisconnect w' = true /\
  config w' = config w /\ scheduled w' = scheduled w /\
  starts w' = starts w /\
  run later w' = w'.
Proof.
  intros Hw Hex w'.
  assert (Hw' : w' = does (host_exit 0)
                       (stopStream true
                          (console_log "Shutting down gracefully..." w))).
  { unfold w', step. rewrite Hex. reflexivity. }
  set (logged := console_log "Shutting down gracefully..." w) in *.
  assert (Hl : tracked logged = true) by exact Hw.
  destruct (stopStream_clears true logged Hl) as [Ht Hc].
  destruct (stopStream_vars true logged)
    as (Hi & _ & _ & _ & Hcfg & _).
  assert (Hexit : exited (env w') = Some 0) by (rewrite Hw'; reflexivity).
  rewrite Hw' at 1 2 3 4 5 6 7.
  repeat split; try assumption.
  - unfold scheduled at 1. cbn. rewrite flat_map_app. cbn. rewrite app_nil_r.
    change (scheduled (stopStream true logged) = scheduled w).
    rewrite stopStream_scheduled. unfold logged, console_log.
    rewrite scheduled_emit. apply app_nil_r.
  - unfold starts at 1. cbn. rewrite filter_app. cbn. rewrite app_nil_r.
    change (starts (stopStream true logged) = starts w).
    clear. subst logged. open_world w. unfold starts.
    destruct cs, pt, rt; cbn; rewrite ?filter_app; cbn;
      rewrite ?app_nil_r; reflexivity.
  - apply (run_exited later w' 0 Hexit).
Qed.

(** *** Retrying without end *)

Lemma startStream_false w : startStream false w = Throws w.
Proof. unfold startStream. destruct (client w), (config w); reflexivity. Qed.

Lemma retry_fails w t d :
  isIntentionalDisconnect w = false -> isReloading w = false ->
  exited (env w) = None -> timeouts (env w) = [(t, d)] ->
  let w' := retry false w in
  isIntentionalDisconnect w' = false /\ isReloading w' = false /\
  exited (env w') = None /\
  timeouts (env w')
  = [(fresh (env w), getReconnectDelay (N.succ (reconnectAttempts w)))] /\
  reconnectAttempts w' = N.succ (reconnectAttempts w) /\
  scheduled w'
  = (scheduled w ++ [getReconnectDelay (N.succ (reconnectAttempts w))])%list /\
  starts w' = starts w /\ calls (env w') = calls (env w).
Proof.
  intros Hi Hr Hex Ht w'. subst w'. unfold retry. rewrite Ht.
  unfold step. rewrite Hex. unfold pending. rewrite Ht. cbn [existsb fst].
  rewrite Nat.eqb_refl. cbn [orb].
  unfold reconnect. rewrite startStream_false.
  revert Hi Hr Hex Ht. open_world w. cbn. intros -> -> -> ->.
  unfold attemptReconnect, scheduled, starts. cbn.
  rewrite Nat.eqb_refl. cbn.
  rewrite !flat_map_app, !filter_app. cbn. rewrite !app_nil_r.
  repeat split.
Qed.

(** While the disconnect is not intentional, a failed attempt always
    schedules the next one: after any number [k] of attempts at which the
    call cannot be opened, a timeout is pending again, the counter has grown
    by [k], no call was opened, and the delays set on the way are those of
    the counter values that followed, one after the other.  There is no
    last attempt. *)
Theorem never_gives_up (k : nat) : forall (w : world) (t : handle) (d : Z),
  isIntentionalDisconnect w = false -> isReloading w = false ->
  exited (env w) = None -> timeouts (env w) = [(t, d)] ->
  let w' := fail_again k w in
  List.length (timeouts (env w')) = 1%nat /\
  reconnectAttempts w' = (reconnectAttempts w + N.of_nat k)%N /\
  scheduled w'
  = (scheduled w ++ delays_from (reconnectAttempts w) k)%list /\
  starts w' = starts w /\
  exited (env w') = None.
Proof.
  induction k as [| k IH]; intros w t d Hi Hr Hex Ht.
  - cbn. rewrite Ht, app_nil_r, N.add_0_r. repeat split. exact Hex.
  - destruct (retry_fails w t d Hi Hr Hex Ht)
      as (Hi' & Hr' & Hex' & Ht' & Ha' & Hs' & Hst' & _).
    specialize (IH (retry false w) _ _ Hi' Hr' Hex' Ht').
    cbn zeta in IH. destruct IH as (Hl & Ha & Hs & Hst & Hex'').
    change (fail_again (S k) w) with (fail_again k (retry false w)).
    cbn zeta. rewrite Hl, Ha, Hs, Hst, Ha', Hs', Hst'.
    repeat split; try assumption.
    + lia.
    + cbn [delays_from]. rewrite <- app_assoc. reflexivity.
Qed.

Lemma never_gives_up_witness :
  let w' := fail_again 7 reconnecting in
  List.length (timeouts (env w')) = 1%nat /\
  reconnectAttempts w' = (reconnectAttempts reconnecting + N.of_nat 7)%N /\
  scheduled w'
  = (scheduled reconnecting
     ++ delays_from (reconnectAttempts reconnecting) 7)%list /\
  starts w' = starts reconnecting /\
  exited (env w') = None.
Proof.
  apply (never_gives_up 7 reconnecting 2%nat 2000); vm_compute; reflexivity.
Defined.

(** *** Every delay that is ever set *)

Lemma next_delay_in_range (n : N) : in_range (getReconnectDelay (N.succ n)).
Proof.
  unfold in_range. rewrite BackoffFacts.delay_closed_form.
  assert (2 ^ Z.of_N 1 <= 2 ^ Z.of_N (N.succ n))
    by (apply BackoffFacts.pow2_mono; lia).
  change (2 ^ Z.of_N 1) with 2 in H. lia.
Qed.

Lemma attemptReconnect_range w :
  Forall in_range (scheduled w) -> Forall in_range (scheduled (attemptReconnect w)).
Proof.
  intros H.
  destruct (isIntentionalDisconnect w) eqn:Hi;
    [unfold attemptReconnect; rewrite Hi; exact H |].
  destruct (isReloading w) eqn:Hr;
    [unfold attemptReconnect; rewrite Hi, Hr; exact H |].
  rewrite attemptReconnect_scheduled by assumption.
  apply Forall_app. split; [exact H |].
  constructor; [apply next_delay_in_range | constructor].
Qed.

Lemma reload_scheduled file b dex w :
  scheduled (reload file b dex w) = scheduled w.
Proof.
  unfold reload.
  assert (Herr : forall text x,
             scheduled (console_error text x) = scheduled x)
    by (intros text x; unfold console_error; rewrite scheduled_emit;
        apply app_nil_r).
  destruct file as [| [newConfig |]]; cbn [loadConfig].
  - change (scheduled (set_isReloading false ?x)) with (scheduled x).
    rewrite !Herr. reflexivity.
  - destruct (config w) as [oldConfig |].
    + set (stopped := set_config (Some newConfig) (stopStream true w)).
      assert (Hd : scheduled stopped = scheduled w)
        by apply stopStream_scheduled.
      clearbody stopped.
      assert (Hinit : match (if hasServerConfigChanged oldConfig newConfig
                             then initializeClient b stopped
                             else Returns stopped) with
                      | Returns w' | Throws w' => scheduled w' = scheduled w
                      end).
      { destruct (hasServerConfigChanged oldConfig newConfig); [| exact Hd].
        pose proof (initializeClient_backoff b stopped) as H.
        destruct (initializeClient b stopped); rewrite <- Hd; apply H. }
      destruct (if hasServerConfigChanged oldConfig newConfig
                then initializeClient b stopped else Returns stopped)
        as [w1 | w1].
      * pose proof (startStream_backoff dex w1) as H.
        destruct (startStream dex w1) as [w2 | w2];
          change (scheduled (set_isReloading false ?x)) with (scheduled x);
          rewrite ?Herr, <- Hinit; apply H.
      * change (scheduled (set_isReloading false ?x)) with (scheduled x).
        rewrite Herr. exact Hinit.
    + unfold uncaught, scheduled. cbn. rewrite flat_map_app. apply app_nil_r.
  - change (scheduled (set_isReloading false ?x)) with (scheduled x).
    apply Herr.
Qed.

Lemma step_range e w :
  Forall in_range (scheduled w) -> Forall in_range (scheduled (step e w)).
Proof.
  intros H. unfold step. destruct (exited (env w)); [exact H |].
  assert (Hlog : forall text x,
             scheduled (console_log text x) = scheduled x)
    by (intros text x; unfold console_log; rewrite scheduled_emit;
        apply app_nil_r).
  assert (Herr : forall text x,
             scheduled (console_error text x) = scheduled x)
    by (intros text x; unfold console_error; rewrite scheduled_emit;
        apply app_nil_r).
  destruct e as [s | s | t dex | file b dex |].
  - destruct (opened s w); [| exact H]. unfold on_error.
    destruct (_ && _); [| exact H].
    apply attemptReconnect_range.
    rewrite stopStream_scheduled, !Herr. exact H.
  - destruct (opened s w); [| exact H]. unfold on_end.
    destruct (_ && _); [| exact H].
    apply attemptReconnect_range.
    rewrite stopStream_scheduled, Hlog. exact H.
  - destruct (pending t w); [| exact H]. unfold reconnect.
    set (fired := console_log "Attempting to reconnect..."
                    (does (host_fire t) w)).
    assert (Hf : scheduled fired = scheduled w)
      by (unfold fired; rewrite Hlog; reflexivity).
    pose proof (startStream_backoff dex fired) as Hs.
    destruct (startStream dex fired) as [w1 | w1];
      destruct Hs as (_ & _ & Hs).
    + rewrite Hs, Hf. exact H.
    + apply attemptReconnect_range. rewrite Herr, Hs, Hf. exact H.
  - unfold reloadAndRestart. destruct (isReloading w); [exact H |].
    rewrite reload_scheduled. exact H.
  - unfold on_signal, scheduled. cbn. rewrite flat_map_app. cbn.
    rewrite app_nil_r.
    change (Forall in_range
              (scheduled (stopStream true
                            (console_log "Shutting down gracefully..." w)))).
    rewrite stopStream_scheduled, Hlog. exact H.
Qed.

Lemma main_scheduled file b dex : scheduled (main file b dex) = [].
Proof.
  destruct file as [| [cfg |]]; [| destruct b, dex |]; reflexivity.
Qed.

(** Every reconnect delay the supervisor ever sets, whatever the start-up
    and the events, is at least 2000 and at most 30000 milliseconds. *)
Theorem every_delay_in_range
    (file : file_read) (b : build) (dex : bool) (events : list event) :
  Forall (fun d => 2000 <= d <= 30000)
         (scheduled (run events (main file b dex))).
Proof.
  change (Forall in_range (scheduled (run events (main file b dex)))).
  assert (H0 : Forall in_range (scheduled (main file b dex)))
    by (rewrite main_scheduled; constructor).
  generalize dependent (main file b dex).
  induction events as [| e events IH]; intros w H; [exact H |].
  change (run (e :: events) w) with (run events (step e w)).
  apply IH, step_range, H.
Qed.

(** *** Reloading: the client and the new stream *)

Lemma differ_false a b : differ a b = false <-> a = b.
Proof.
  unfold differ. destruct (String.eqb_spec a b); cbn; split; congruence.
Qed.

Lemma differ_flag_false a b : differ_flag a b = false <-> a = b.
Proof.
  destruct a as [[|] |], b as [[|] |]; cbn; split; congruence.
Qed.

Lemma server_change_detected oldConfig newConfig :
  hasServerConfigChanged oldConfig newConfig = false
  <-> server oldConfig = server newConfig.
Proof.
  unfold hasServerConfigChanged.
  destruct (server oldConfig) as [a1 k1 i1], (server newConfig) as [a2 k2 i2].
  cbn [address authorization insecure].
  rewrite !orb_false_iff, !differ_false, differ_flag_false.
  split; [intros [[-> ->] ->]; reflexivity | intros H; injection H; auto].
Qed.

Lemma stopStream_host intentional w :
  fresh (env (stopStream intentional w)) = fresh (env w) /\
  starts (stopStream intentional w) = starts w /\
  built (stopStream intentional w) = built w /\
  (forall s, currentStream w = Some s ->
             In (Cancel s) (trace (env (stopStream intentional w)))).
Proof.
  open_world w. unfold starts, built.
  destruct cs, pt, rt; cbn; rewrite ?filter_app; cbn; rewrite ?app_nil_r;
    repeat split; try discriminate;
    intros s H; injection H as ->; rewrite ?in_app_iff; cbn; tauto.
Qed.

Lemma startStream_opens w c cfg :
  client w = Some c -> config w = Some cfg ->
  exists w',
    startStream true w = Returns w' /\
    calls (env w') = (calls (env w) ++ [fresh (env w)])%list /\
    currentStream w' = Some (fresh (env w)) /\
    In (DexTrades (fresh (env w)) (createRequest cfg)) (trace (env w')) /\
    timeouts (env w') = timeouts (env w) /\
    reconnectAttempts w' = 0%N /\
    starts w' = S (starts w) /\ built w' = built w /\
    client w' = client w /\ config w' = config w /\
    metadata w' = metadata w /\
    (forall e, In e (trace (env w)) -> In e (trace (env w'))).
Proof.
  intros Hc Hcfg. unfold startStream. rewrite Hc, Hcfg. cbn.
  destruct (performanceTimer w); eexists; (split; [reflexivity |]);
    unfold starts, built; cbn; rewrite ?filter_app; cbn;
    rewrite ?app_nil_r, ?length_app; cbn;
    repeat split; try lia; try (intros e He);
    rewrite ?in_app_iff; cbn; tauto.
Qed.

(** A reload whose file loads constructs a new client exactly when the
    server settings differ from the current ones: with the same server the
    client and its metadata are kept and no client is constructed, whatever
    else changed; with a different server, and a constructor that returns,
    one client is constructed, for the new address and authorization.
    Either way the loaded configuration becomes the current one. *)
Theorem reload_rebuilds_client_on_server_change
    (w : world) (oldConfig target : Config) (b : build) (dex : bool) :
  isReloading w = false -> config w = Some oldConfig ->
  let w' := reloadAndRestart (Parsed (Some target)) b dex w in
  config w' = Some target /\
  (server oldConfig = server target ->
   client w' = client w /\ metadata w' = metadata w /\ built w' = built w) /\
  (server oldConfig <> server target -> b = Built ->
   client w' = Some (address (server target)) /\
   metadata w'
   = Some [("authorization", authorization (server target))] /\
   built w' = S (built w)).
Proof.
  intros Hr Hc w'.
  assert (Hw' : w' = reload (Parsed (Some target)) b dex
                       (set_isReloading true w))
    by (unfold w', reloadAndRestart; rewrite Hr; reflexivity).
  split; [rewrite Hw'; apply (reload_target oldConfig); exact Hc |].
  rewrite Hw'. unfold reload. cbn [loadConfig].
  change (config (set_isReloading true w)) with (config w). rewrite Hc.
  set (stopped := set_config (Some target)
                    (stopStream true (set_isReloading true w))).
  destruct (stopStream_vars true (set_isReloading true w))
    as (_ & _ & _ & _ & _ & Hcl & Hmd & _).
  destruct (stopStream_host true (set_isReloading true w))
    as (_ & _ & Hb & _).
  assert (Hs : client stopped = client w /\ metadata stopped = metadata w /\
               built stopped = built w /\ config stopped = Some target)
    by (repeat split; assumption).
  clearbody stopped. destruct Hs as (Hscl & Hsmd & Hsb & Hscfg).
  assert (Hstart : forall x,
            match startStream dex x with
            | Returns y | Throws y =>
                client y = client x /\ metadata y = metadata x /\
                built y = built x
            end).
  { intros x. unfold startStream.
    destruct (client x) eqn:Ecl, (config x), dex; auto.
    unfold built. cbn. destruct (performanceTimer x); cbn;
      rewrite ?filter_app; cbn; rewrite ?app_nil_r; auto. }
  assert (Herr : forall text x, built (console_error text x) = built x)
    by (intros text x; unfold built; cbn; rewrite filter_app; cbn;
        apply f_equal, app_nil_r).
  assert (Hinit : built (does (emit (NewCoreCast (address (server target))))
                           stopped) = S (built w)).
  { unfold built in Hsb |- *. cbn. rewrite filter_app, length_app. cbn.
    rewrite Hsb. lia. }
  split.
  - intros Hsame. apply server_change_detected in Hsame. rewrite Hsame.
    pose proof (Hstart stopped) as H.
    destruct (startStream dex stopped) as [y | y];
      destruct H as (H1 & H2 & H3);
      repeat (change (client (set_isReloading false ?x)) with (client x);
              change (metadata (set_isReloading false ?x)) with (metadata x);
              change (built (set_isReloading false ?x)) with (built x);
              change (client (console_error ?t ?x)) with (client x);
              change (metadata (console_error ?t ?x)) with (metadata x));
      rewrite ?Herr; repeat split; congruence.
  - intros Hdiff ->.
    destruct (hasServerConfigChanged oldConfig target) eqn:Hch;
      [| apply server_change_detected in Hch; contradiction].
    unfold initializeClient. rewrite Hscfg.
    match goal with
    | |- context [startStream dex ?x] =>
        pose proof (Hstart x) as H; destruct (startStream dex x) as [y | y]
    end;
      destruct H as (H1 & H2 & H3);
      repeat (change (client (set_isReloading false ?x)) with (client x);
              change (metadata (set_isReloading false ?x)) with (metadata x);
              change (built (set_isReloading false ?x)) with (built x);
              change (client (console_error ?t ?x)) with (client x);
              change (metadata (console_error ?t ?x)) with (metadata x));
      rewrite ?Herr, H1, H2, H3; repeat split; exact Hinit.
Qed.

Lemma reload_rebuilds_client_on_server_change_witness :
  let w' := reloadAndRestart (Parsed (Some retargeted)) Built true streaming in
  config w' = Some retargeted /\
  (server sample_config = server retargeted ->
   client w' = client streaming /\ metadata w' = metadata streaming /\
   built w' = built streaming) /\
  (server sample_config <> server retargeted -> Built = Built ->
   client w' = Some (address (server retargeted)) /\
   metadata w'
   = Some [("authorization", authorization (server retargeted))] /\
   built w' = S (built streaming)).
Proof.
  apply (reload_rebuilds_client_on_server_change streaming sample_config
           retargeted Built true); vm_compute; reflexivity.
Defined.

Lemma initializeClient_built w cfg :
  config w = Some cfg ->
  exists x,
    initializeClient Built w = Returns x /\
    client x = Some (address (server cfg)) /\ config x = config w /\
    calls (env x) = calls (env w) /\ timeouts (env x) = timeouts (env w) /\
    fresh (env x) = fresh (env w) /\ starts x = starts w /\
    (forall e, In e (trace (env w)) -> In e (trace (env x))).
Proof.
  intros Hc. unfold initializeClient. rewrite Hc.
  eexists. split; [reflexivity |]. unfold starts. cbn.
  rewrite filter_app. cbn. rewrite app_nil_r. repeat split.
  all: first [assumption | intros; apply in_or_app; left; assumption].
Qed.

(** A reload whose file loads, with a client that can be built and a call
    that can be opened, ends with exactly one open call: the one it opened
    with the request of the loaded configuration, held by [currentStream].
    The stream that was current before has been cancelled, nothing is
    pending, the counter is 0 and [isReloading] is cleared. *)
Theorem reload_restarts_with_new_request
    (w : world) (oldConfig target : Config) (c : string) :
  tracked w = true -> isReloading w = false ->
  config w = Some oldConfig -> client w = Some c ->
  let w' := reloadAndRestart (Parsed (Some target)) Built true w in
  let s := fresh (env w) in
  calls (env w') = [s] /\ currentStream w' = Some s /\
  In (DexTrades s (createRequest target)) (trace (env w')) /\
  timeouts (env w') = [] /\ reconnectAttempts w' = 0%N /\
  isReloading w' = false /\ starts w' = S (starts w) /\
  (forall previous, currentStream w = Some previous ->
                    In (Cancel previous) (trace (env w'))).
Proof.
  intros Hw Hr Hc Hcl w' s.
  assert (Hw' : w' = reload (Parsed (Some target)) Built true
                       (set_isReloading true w))
    by (unfold w', reloadAndRestart; rewrite Hr; reflexivity).
  rewrite Hw'. unfold reload. cbn [loadConfig].
  change (config (set_isReloading true w)) with (config w). rewrite Hc.
  set (stopped := set_config (Some target)
                    (stopStream true (set_isReloading true w))).
  destruct (stopStream_clears true (set_isReloading true w) Hw) as [Ht Hcs].
  destruct (stopStream_vars true (set_isReloading true w))
    as (_ & _ & _ & _ & _ & Hscl & _).
  destruct (stopStream_host true (set_isReloading true w))
    as (Hf & Hst & _ & Hcancel).
  assert (Hs : timeouts (env stopped) = [] /\ calls (env stopped) = [] /\
               client stopped = Some c /\ config stopped = Some target /\
               fresh (env stopped) = s /\ starts stopped = starts w /\
               (forall previous, currentStream w = Some previous ->
                  In (Cancel previous) (trace (env stopped)))).
  { repeat split; try assumption. rewrite <- Hcl. exact Hscl. }
  clearbody stopped. clear Ht Hcs Hscl Hf Hst Hcancel.
  destruct Hs as (Ht & Hcs & Hscl & Hscfg & Hf & Hst & Hcancel).
  assert (Hinit : exists x,
            (if hasServerConfigChanged oldConfig target
             then initializeClient Built stopped else Returns stopped)
            = Returns x /\
            (exists c', client x = Some c') /\ config x = Some target /\
            calls (env x) = [] /\ timeouts (env x) = [] /\
            fresh (env x) = s /\ starts x = starts w /\
            (forall e, In e (trace (env stopped)) -> In e (trace (env x)))).
  { destruct (hasServerConfigChanged oldConfig target).
    - destruct (initializeClient_built stopped target Hscfg)
        as (x & Hx & H1 & H2 & H3 & H4 & H5 & H6 & H7).
      exists x. repeat split; try congruence; eauto.
    - exists stopped. repeat split; eauto. }
  destruct Hinit as (x & -> & (c' & Hxc) & Hxcfg & Hxcs & Hxt & Hxf & Hxst & Hxtr).
  destruct (startStream_opens x c' target Hxc Hxcfg)
    as (y & -> & Hy1 & Hy2 & Hy3 & Hy4 & Hy5 & Hy6 & _ & _ & _ & _ & Hytr).
  set (z := set_isReloading false y).
  assert (Hz : calls (env z) = calls (env y) /\
               currentStream z = currentStream y /\
               trace (env z) = trace (env y) /\
               timeouts (env z) = timeouts (env y) /\
               reconnectAttempts z = reconnectAttempts y /\
               isReloading z = false /\ starts z = starts y)
    by (repeat split).
  clearbody z. destruct Hz as (Z1 & Z2 & Z3 & Z4 & Z5 & Z6 & Z7).
  rewrite Z1, Z2, Z3, Z4, Z5, Z6, Z7.
  rewrite Hy1, Hy2, Hy4, Hy5, Hy6, Hxcs, Hxt, Hxf, Hxst.
  rewrite Hxf in Hy3. repeat split; auto.
Qed.

(** *** What holds between events while the supervisor runs *)

Lemma same_setup_refl w : same_setup w w.
Proof. repeat split. Qed.

Lemma same_setup_trans w1 w2 w3 :
  same_setup w1 w2 -> same_setup w2 w3 -> same_setup w1 w3.
Proof. unfold same_setup. intuition congruence. Qed.

Lemma same_setup_settled w w' : same_setup w w' -> settled w -> settled w'.
Proof.
  unfold same_setup, settled. intros (-> & -> & -> & ->) H. exact H.
Qed.

Lemma stopStream_setup intentional w : same_setup w (stopStream intentional w).
Proof.
  destruct (stopStream_vars intentional w)
    as (_ & _ & _ & _ & H1 & H2 & _ & H3 & _ & H4).
  repeat split; assumption.
Qed.

Lemma attemptReconnect_setup w : same_setup w (attemptReconnect w).
Proof.
  unfold attemptReconnect.
  destruct (isIntentionalDisconnect w || isReloading w); repeat split.
Qed.

Lemma startStream_setup dex w :
  match startStream dex w with
  | Returns w' | Throws w' => same_setup w w'
  end.
Proof.
  unfold startStream.
  destruct (client w) eqn:Ecl, (config w) eqn:Ecfg, dex;
    try apply same_setup_refl.
  cbn. destruct (performanceTimer w); repeat split; cbn; assumption.
Qed.

Lemma reload_settled file b dex w :
  config w <> None -> client w <> None -> exited (env w) = None ->
  let w' := reload file b dex w in
  isReloading w' = false /\ config w' <> None /\ client w' <> None.
Proof.
  intros Hcfg Hcl Hex. unfold reload.
  destruct file as [| [newConfig |]]; cbn [loadConfig];
    try (repeat split; assumption).
  destruct (config w) as [oldConfig |] eqn:Ec; [| congruence].
  set (stopped := set_config (Some newConfig) (stopStream true w)).
  assert (Hs : config stopped = Some newConfig /\ client stopped <> None).
  { split; [reflexivity |]. unfold stopped.
    destruct (stopStream_setup true w) as (_ & H & _).
    change (client (stopStream true w) <> None). rewrite H. exact Hcl. }
  clearbody stopped. destruct Hs as [Hsc Hscl].
  assert (Hinit : match (if hasServerConfigChanged oldConfig newConfig
                         then initializeClient b stopped
                         else Returns stopped) with
                  | Returns x | Throws x =>
                      config x = Some newConfig /\ client x <> None
                  end).
  { destruct (hasServerConfigChanged oldConfig newConfig); [| auto].
    unfold initializeClient. rewrite Hsc.
    destruct b; cbn; split; auto; discriminate. }
  destruct (if hasServerConfigChanged oldConfig newConfig
            then initializeClient b stopped else Returns stopped)
    as [x | x]; destruct Hinit as [Hxc Hxcl].
  - pose proof (startStream_setup dex x) as H.
    destruct (startStream dex x) as [y | y]; destruct H as (H1 & H2 & _);
      cbn; rewrite H1, H2, Hxc; repeat split; auto; discriminate.
  - cbn. rewrite Hxc. repeat split; auto; discriminate.
Qed.

Lemma step_settled e w : settled w -> settled (step e w).
Proof.
  intros Hw. unfold step. destruct (exited (env w)) eqn:Hex; [exact Hw |].
  destruct (Hw Hex) as (Hr & Hcfg & Hcl).
  destruct e as [s | s | t dex | file b dex |].
  - destruct (opened s w); [| exact Hw]. unfold on_error.
    destruct (_ && _); [| exact Hw].
    eapply same_setup_settled; [| exact Hw].
    eapply same_setup_trans; [| apply attemptReconnect_setup].
    eapply same_setup_trans; [| apply stopStream_setup].
    repeat split.
  - destruct (opened s w); [| exact Hw]. unfold on_end.
    destruct (_ && _); [| exact Hw].
    eapply same_setup_settled; [| exact Hw].
    eapply same_setup_trans; [| apply attemptReconnect_setup].
    eapply same_setup_trans; [| apply stopStream_setup].
    repeat split.
  - destruct (pending t w); [| exact Hw]. unfold reconnect.
    set (fired := console_log "Attempting to reconnect..."
                    (does (host_fire t) w)).
    assert (Hf : same_setup w fired) by (repeat split).
    pose proof (startStream_setup dex fired) as H.
    destruct (startStream dex fired) as [y | y];
      eapply same_setup_settled; try exact Hw.
    + eapply same_setup_trans; [exact Hf | exact H].
    + eapply same_setup_trans; [| apply attemptReconnect_setup].
      eapply same_setup_trans; [exact Hf |].
      eapply same_setup_trans; [exact H |]. repeat split.
  - unfold reloadAndRestart. rewrite Hr. intros _.
    apply (reload_settled file b dex (set_isReloading true w));
      assumption.
  - unfold on_signal. intros H. discriminate H.
Qed.

Lemma main_settled file b dex : settled (main file b dex).
Proof.
  unfold settled.
  destruct file as [| [cfg |]]; [| destruct b, dex |]; cbn; intros H;
    try discriminate H; repeat split; discriminate.
Qed.

Lemma run_settled events : forall w, settled w -> settled (run events w).
Proof.
  induction events as [| e events IH]; intros w0 H0; [exact H0 |].
  change (run (e :: events) w0) with (run events (step e w0)).
  apply IH, step_settled, H0.
Qed.

(** While the process runs, between any two events the supervisor is
    outside any reload and has a configuration and a client: a change of
    the configuration file therefore always finds [isReloading] false and
    is acted upon, and [startStream] never fails for want of a client or a
    configuration after start-up. *)
Theorem running_supervisor_is_settled
    (file : file_read) (b : build) (dex : bool) (events : list event) :
  let w := run events (main file b dex) in
  exited (env w) = None ->
  isReloading w = false /\ config w <> None /\ client w <> None /\
  (forall file' b' dex',
     step (ConfigChanged file' b' dex') w
     = reload file' b' dex' (set_isReloading true w)) /\
  (forall w', startStream true w <> Throws w').
Proof.
  intros w Hex.
  assert (Hs : settled w) by apply run_settled, main_settled.
  destruct (Hs Hex) as (Hr & Hcfg & Hcl).
  repeat split; try assumption.
  - unfold step, reloadAndRestart. rewrite Hex, Hr. reflexivity.
  - intros w'.
    destruct (client w) as [c |] eqn:Ec; [| congruence].
    destruct (config w) as [cfg |] eqn:Ecfg; [| congruence].
    destruct (startStream_opens w c cfg Ec Ecfg) as (y & -> & _).
    discriminate.
Qed.

Lemma running_supervisor_is_settled_witness :
  let w := run six_failures (main (Parsed (Some sample_config)) Built true) in
  isReloading w = false /\ config w <> None /\ client w <> None /\
  (forall file' b' dex',
     step (ConfigChanged file' b' dex') w
     = reload file' b' dex' (set_isReloading true w)) /\
  (forall w', startStream true w <> Throws w').
Proof.
  apply (running_supervisor_is_settled (Parsed (Some sample_config)) Built true
           six_failures).
  vm_compute. reflexivity.
Defined.

(** *** An attempt that succeeds *)

(** When the pending timeout fires and the call can be opened, the
    supervisor streams again: exactly one call is open, opened with the
    request of the current configuration and held by [currentStream],
    nothing is pending, no new delay was set, and the counter is back
    at 0. *)
Theorem attempt_that_succeeds_streams_again
    (w : world) (t : handle) (d : Z) (c : string) (cfg : Config) :
  exited (env w) = None ->
  timeouts (env w) = [(t, d)] -> calls (env w) = [] ->
  client w = Some c -> config w = Some cfg ->
  let w' := step (Timeout t true) w in
  let s := fresh (env w) in
  calls (env w') = [s] /\ currentStream w' = Some s /\
  In (DexTrades s (createRequest cfg)) (trace (env w')) /\
  timeouts (env w') = [] /\ reconnectAttempts w' = 0%N /\
  scheduled w' = scheduled w /\ starts w' = S (starts w).
Proof.
  intros Hex Ht Hcs Hcl Hcfg w' s.
  assert (Hw' : w' = reconnect true (does (host_fire t) w)).
  { unfold w', step, pending. rewrite Hex, Ht. cbn.
    rewrite Nat.eqb_refl. reflexivity. }
  set (fired := console_log "Attempting to reconnect..."
                  (does (host_fire t) w)).
  assert (Hf : client fired = Some c /\ config fired = Some cfg /\
               calls (env fired) = [] /\ timeouts (env fired) = [] /\
               fresh (env fired) = s /\ starts fired = starts w /\
               scheduled fired = scheduled w).
  { unfold fired, starts, scheduled. cbn.
    rewrite Ht, filter_app, flat_map_app. cbn.
    rewrite Nat.eqb_refl, !app_nil_r. cbn. repeat split; assumption. }
  destruct Hf as (F1 & F2 & F3 & F4 & F5 & F6 & F7).
  destruct (startStream_opens fired c cfg F1 F2)
    as (y & Hy & Y1 & Y2 & Y3 & Y4 & Y5 & Y6 & _).
  pose proof (startStream_backoff true fired) as Hb. rewrite Hy in Hb.
  destruct Hb as (_ & _ & Hsched).
  rewrite Hw'. unfold reconnect. fold fired. rewrite Hy.
  rewrite Y1, Y2, Y4, Y5, Y6, Hsched, F3, F4, F6, F7.
  rewrite F5 in Y3. repeat split; auto.
Qed.

Lemma attempt_that_succeeds_streams_again_witness :
  let w' := step (Timeout 2%nat true) reconnecting in
  let s := fresh (env reconnecting) in
  calls (env w') = [s] /\ currentStream w' = Some s /\
  In (DexTrades s (createRequest sample_config)) (trace (env w')) /\
  timeouts (env w') = [] /\ reconnectAttempts w' = 0%N /\
  scheduled w' = scheduled reconnecting /\
  starts w' = S (starts reconnecting).
Proof.
  apply (attempt_that_succeeds_streams_again reconnecting 2%nat 2000
           "corecast.bitquery.io" sample_config); vm_compute; reflexivity.
Defined.

Lemma reload_restarts_with_new_request_witness :
  let w' := reloadAndRestart (Parsed (Some retargeted)) Built true streaming in
  let s := fresh (env streaming) in
  calls (env w') = [s] /\ currentStream w' = Some s /\
  In (DexTrades s (createRequest retargeted)) (trace (env w')) /\
  timeouts (env w') = [] /\ reconnectAttempts w' = 0%N /\
  isReloading w' = false /\ starts w' = S (starts streaming) /\
  (forall previous, currentStream streaming = Some previous ->
                    In (Cancel previous) (trace (env w'))).
Proof.
  apply (reload_restarts_with_new_request streaming sample_config retargeted
           "corecast.bitquery.io"); vm_compute; reflexivity.
Defined.

Lemma signal_ends_with_status_0_witness :
  let later := [Timeout 2%nat true; ConfigChanged Unreadable Built true] in
  let w' := step Signal reconnecting in
  exited (env w') = Some 0 /\
  calls (env w') = [] /\ timeouts (env w') = [] /\
  isIntentionalDisconnect w' = true /\
  config w' = config reconnecting /\ scheduled w' = scheduled reconnecting /\
  starts w' = starts reconnecting /\
  run later w' = w'.
Proof.
  apply (signal_ends_with_status_0 reconnecting
           [Timeout 2%nat true; ConfigChanged Unreadable Built true]);
    vm_compute; reflexivity.
Defined.

End SupervisorMore.

(** ** Requests *)

Module RequestFacts.
Local Open Scope string_scope.

Lemma supervisor_field_In name l n a :
  In (n, a) (Supervisor.field name l) <-> n = name /\ a = l /\ l <> [].
Proof.
  destruct l as [| x l]; cbn.
  - split; [intros [] | intros (_ & _ & H); apply H; reflexivity].
  - split.
    + intros [H | []]. injection H as <- <-. repeat split. discriminate.
    + intros (-> & -> & _). left. reflexivity.
Qed.

Lemma feed_field_In name l n a :
  In (n, a) (TradeFeed.field name l) <-> n = name /\ a = l /\ l <> [].
Proof.
  destruct l as [| x l]; cbn.
  - split; [intros [] | intros (_ & _ & H); apply H; reflexivity].
  - split.
    + intros [H | []]. injection H as <- <-. repeat split. discriminate.
    + intros (-> & -> & _). left. reflexivity.
Qed.

(** The request carries a filter exactly when the configuration lists at
    least one address for it, in both programs: no field of a request has
    an empty address list, each field holds the configured list, and the
    supervisor never sends a token filter. *)
Theorem requests_omit_empty_filters :
  (forall (config : Supervisor.Config) (name : string) (a : list string),
     In (name, a) (Supervisor.createRequest config) <->
     a <> [] /\
     (name = "program" /\ a = Supervisor.programs (Supervisor.filters config) \/
      name = "pool" /\ a = Supervisor.pool (Supervisor.filters config) \/
      name = "trader" /\ a = Supervisor.traders (Supervisor.filters config) \/
      name = "signer" /\ a = Supervisor.signers (Supervisor.filters config))) /\
  (forall (config : TradeFeed.Config) (name : string) (a : list string),
     In (name, a) (TradeFeed.createRequest config) <->
     a <> [] /\
     (name = "program" /\ a = TradeFeed.programs (TradeFeed.filters config) \/
      name = "pool" /\ a = TradeFeed.pool (TradeFeed.filters config) \/
      name = "token" /\ a = TradeFeed.tokens (TradeFeed.filters config) \/
      name = "trader" /\ a = TradeFeed.traders (TradeFeed.filters config) \/
      name = "signer" /\ a = TradeFeed.signers (TradeFeed.filters config))).
Proof.
  split; intros config name a.
  - unfold Supervisor.createRequest. cbn zeta.
    rewrite !in_app_iff, !supervisor_field_In. intuition (subst; auto).
  - unfold TradeFeed.createRequest. cbn zeta.
    rewrite !in_app_iff, !feed_field_In. intuition (subst; auto).
Qed.

End RequestFacts.

(** ** The trade feed: start-up, cache, filter and log buffer *)

Module TradeFeedMore.
Import Bytes TradeFeed Base58Facts.
Local Open Scope string_scope.

(** Start-up leaves the process running exactly when the trade filter is
    one of the three names (or falsy), the vendor packages load and build,
    the stream type is one of the six supported and the call is opened;
    then exactly one stream has been opened, with the method of that type
    and the request of the configuration.  In every other case the process
    ends with status 1 and no stream has been opened. *)
Theorem startup_runs_iff (v : vendor) (config : Config) :
  (snd (main v config) = Running \/ snd (main v config) = Exited 1) /\
  (snd (main v config) = Running <->
   includes ["alltrades"; "buys"; "sells"] (tradeFilter config) = true /\
   proto_loads v = true /\ client_constructs v = true /\
   method_of (stream_type config) <> None /\ call_returns v = true) /\
  (snd (main v config) = Running ->
   exists method,
     method_of (stream_type config) = Some method /\
     filter is_subscribe (fst (main v config))
     = [Subscribe method (createRequest config)]) /\
  (snd (main v config) <> Running ->
   existsb is_subscribe (fst (main v config)) = false).
Proof.
  unfold main, listenToStream.
  destruct (includes _ (tradeFilter config)), (proto_loads v),
    (client_constructs v), (method_of (stream_type config)) as [m |],
    (call_returns v); cbn;
    (split; [auto |]); (split; [split; [intros H; try discriminate H
                                       | intros (H1 & H2 & H3 & H4 & H5);
                                         try discriminate; try congruence]
                               |]);
    try (split; [intros H; try discriminate H | intros H; try reflexivity]);
    try (repeat split; congruence);
    try (exfalso; apply H; reflexivity); eauto.
Qed.

(** *** The cache as a bounded map *)

Lemma cache_get_set key value : forall c,
  cache_get key (cache_set key value c) = Some value.
Proof.
  induction c as [| [k v] c IH]; cbn.
  - rewrite String.eqb_refl. reflexivity.
  - destruct (String.eqb_spec k key) as [-> | Hk]; cbn.
    + rewrite String.eqb_refl. reflexivity.
    + destruct (String.eqb_spec k key); [contradiction | exact IH].
Qed.

Lemma cache_set_length key value : forall c,
  (List.length (cache_set key value c) <= S (List.length c))%nat.
Proof.
  induction c as [| [k v] c IH]; cbn; [lia |].
  destruct (k =? key); cbn; lia.
Qed.

Lemma cache_delete_first_length (c : Cache) :
  c <> [] ->
  (S (List.length (cache_delete (cache_first_key c) c)) <= List.length c)%nat.
Proof.
  destruct c as [| [k v] c]; [congruence | intros _].
  cbn. rewrite String.eqb_refl. cbn.
  pose proof (filter_length_le (fun e : string * string => negb (fst e =? k)) c).
  lia.
Qed.

Section Encoder.
Variable bs58_encode : list byte -> option string.

Lemma toBase58_bounded bytes c :
  (cache_size c <= MAX_CACHE_SIZE)%N ->
  (cache_size (snd (toBase58 bs58_encode bytes c)) <= MAX_CACHE_SIZE)%N.
Proof.
  intros Hc. unfold toBase58.
  destruct (not_ bytes || (length_ bytes =? 0)%N); [exact Hc |].
  destruct (cache_get _ c); [exact Hc |].
  destruct (bs58_encode (data_of bytes)) as [result |]; [| exact Hc].
  cbn [snd]. unfold cache_size, MAX_CACHE_SIZE in *.
  pose proof (cache_set_length (hex (data_of bytes)) result) as Hset.
  destruct (N.leb_spec 10000 (N.of_nat (List.length c))) as [Hfull | Hroom].
  - assert (Hne : c <> []) by (intros ->; cbn in Hfull; lia).
    pose proof (cache_delete_first_length c Hne).
    specialize (Hset (cache_delete (cache_first_key c) c)). lia.
  - specialize (Hset c). lia.
Qed.

(** Whatever is converted, the cache never holds more than
    [MAX_CACHE_SIZE] entries. *)
Theorem cache_never_exceeds_limit (calls : list bytes_arg) :
  (cache_size (cache_after bs58_encode calls) <= MAX_CACHE_SIZE)%N.
Proof.
  unfold cache_after.
  assert (H0 : (cache_size [] <= MAX_CACHE_SIZE)%N) by (cbn; lia).
  generalize dependent (@nil (string * string)).
  induction calls as [| bytes calls IH]; intros c Hc; cbn; [exact Hc |].
  apply IH, toBase58_bounded, Hc.
Qed.

(** Converting the same bytes again right away gives the same string and
    leaves the cache as the first conversion left it: the second call is
    answered from the cache, or, for an input that is not cached (missing,
    empty, or one the encoder rejects), repeats the first. *)
Theorem converting_again_changes_nothing (bytes : bytes_arg) (c : Cache) :
  toBase58 bs58_encode bytes (snd (toBase58 bs58_encode bytes c))
  = toBase58 bs58_encode bytes c.
Proof.
  unfold toBase58.
  destruct (not_ bytes || (length_ bytes =? 0)%N) eqn:Hn; cbn [snd];
    [reflexivity |].
  destruct (cache_get (hex (data_of bytes)) c) as [v |] eqn:Hget; cbn [snd].
  - rewrite Hget. reflexivity.
  - destruct (bs58_encode (data_of bytes)) as [result |] eqn:He; cbn [snd].
    + rewrite cache_get_set. reflexivity.
    + rewrite Hget. reflexivity.
Qed.

(** *** The filter *)

Lemma shouldShowTrade_sound config t c :
  sound bs58_encode c ->
  fst (shouldShowTrade bs58_encode config t c) = shows bs58_encode config t /\
  snd (shouldShowTrade bs58_encode config t c)
  = fold_left (fun c bytes => snd (toBase58 bs58_encode bytes c))
              (mints_asked config t) c.
Proof.
  intros Hc. unfold shouldShowTrade, shows, mints_asked.
  destruct (tokens (filters config)) as [| token rest]; [split; reflexivity |].
  cbn [fold_left].
  pose proof (cached_uncached bs58_encode (mint_of (Buy t)) c Hc) as Hb.
  pose proof (toBase58_sound bs58_encode (mint_of (Buy t)) c Hc) as Hc1.
  destruct (toBase58 bs58_encode (mint_of (Buy t)) c) as [buyMint c1].
  cbn [fst snd] in Hb, Hc1 |- *.
  pose proof (cached_uncached bs58_encode (mint_of (Sell t)) c1 Hc1) as Hs.
  destruct (toBase58 bs58_encode (mint_of (Sell t)) c1) as [sellMint c2].
  cbn [fst snd] in Hs |- *.
  rewrite <- !uncached_spec. rewrite Hb, Hs.
  destruct (is_name (tradeFilter config) "buys");
    [| destruct (is_name (tradeFilter config) "sells")]; split; reflexivity.
Qed.

(** Whatever the cache holds after the conversions made so far, the
    filter answers as if it converted the two mint addresses afresh: a
    trade is shown when no token is configured, and otherwise when a
    configured token is the converted mint on the side the trade filter
    names (on either side for [alltrades]).  The cache it leaves is the one
    its two conversions leave. *)
Theorem filter_ignores_cache
    (earlier : list bytes_arg) (config : Config) (t : trade) :
  let c := cache_after bs58_encode earlier in
  fst (shouldShowTrade bs58_encode config t c) = shows bs58_encode config t /\
  snd (shouldShowTrade bs58_encode config t c)
  = cache_after bs58_encode (earlier ++ mints_asked config t) /\
  (tokens (filters config) = [] ->
   shouldShowTrade bs58_encode config t c = (true, c)).
Proof.
  intros c.
  destruct (shouldShowTrade_sound config t c
              (cache_after_sound bs58_encode earlier)) as [H1 H2].
  repeat split.
  - exact H1.
  - rewrite H2. unfold cache_after, c. rewrite fold_left_app. reflexivity.
  - intros H. unfold shouldShowTrade. rewrite H. reflexivity.
Qed.

(** With the same token list and the same trade, what [alltrades] shows is
    what [buys] shows together with what [sells] shows. *)
Theorem alltrades_is_buys_or_sells
    (earlier : list bytes_arg) (config : Config) (t : trade) :
  let c := cache_after bs58_encode earlier in
  let shown filter :=
    fst (shouldShowTrade bs58_encode
           (with_trade_filter (YStr filter) config) t c) in
  shown "alltrades" = shown "buys" || shown "sells".
Proof.
  intros c shown. unfold shown.
  rewrite !(proj1 (shouldShowTrade_sound _ t c
                     (cache_after_sound bs58_encode earlier))).
  unfold shows. cbn.
  destruct (tokens (filters config)); [reflexivity |]. cbn. reflexivity.
Qed.

End Encoder.

(** *** The log buffer *)

Lemma append_nil_r (s : string) : (s ++ EmptyString)%string = s.
Proof. induction s as [| a s IH]; cbn; [| rewrite IH]; reflexivity. Qed.

Lemma append_assoc (s t u : string) :
  ((s ++ t) ++ u)%string = (s ++ (t ++ u))%string.
Proof. induction s as [| a s IH]; cbn; [| rewrite IH]; reflexivity. Qed.

Lemma concat_cons (a : string) (l : list string) :
  String.concat EmptyString (a :: l)
  = (a ++ String.concat EmptyString l)%string.
Proof. destruct l; cbn; [rewrite append_nil_r |]; reflexivity. Qed.

Lemma concat_app (l1 l2 : list string) :
  String.concat EmptyString (l1 ++ l2)
  = (String.concat EmptyString l1 ++ String.concat EmptyString l2)%string.
Proof.
  induction l1 as [| a l1 IH]; [reflexivity |].
  rewrite <- app_comm_cons, !concat_cons, IH, append_assoc. reflexivity.
Qed.

Lemma as_lines_app (l1 l2 : list string) :
  as_lines (l1 ++ l2) = (as_lines l1 ++ as_lines l2)%string.
Proof. unfold as_lines. rewrite map_app. apply concat_app. Qed.

Lemma as_lines_cons (m : string) (l : list string) :
  as_lines (m :: l) = ((m ++ newline) ++ as_lines l)%string.
Proof. unfold as_lines. cbn [List.map]. apply concat_cons. Qed.

(** A batch printed with one [console.log] reads like its messages printed
    one by one. *)
Lemma join_as_lines (b : list string) :
  b <> [] -> (join b ++ newline)%string = as_lines b.
Proof.
  induction b as [| m b IH]; [congruence | intros _].
  rewrite as_lines_cons. destruct b as [| m' b].
  - cbn. rewrite append_nil_r. reflexivity.
  - change (join (m :: m' :: b))
      with (m ++ (newline ++ join (m' :: b)))%string.
    rewrite !append_assoc. rewrite IH by discriminate. reflexivity.
Qed.

Lemma console_text_app (e1 e2 : list log_effect) :
  console_text (e1 ++ e2) = (console_text e1 ++ console_text e2)%string.
Proof. unfold console_text. rewrite flat_map_app. apply concat_app. Qed.

Lemma flushLogs_lines l : all_lines (flushLogs l) = all_lines l.
Proof.
  unfold flushLogs, all_lines. destruct (logBuffer l) as [| m b] eqn:Hb;
    [rewrite Hb; reflexivity |].
  cbn [log_effects logBuffer]. rewrite console_text_app.
  unfold console_text at 2. cbn [flat_map app String.concat].
  rewrite join_as_lines by discriminate.
  unfold as_lines at 2. cbn [List.map String.concat].
  rewrite append_nil_r. reflexivity.
Qed.

Lemma on_flush_interval_lines l : all_lines (on_flush_interval l) = all_lines l.
Proof. exact (flushLogs_lines l). Qed.

Lemma bufferedLog_lines message l :
  all_lines (bufferedLog message l)
  = (all_lines l ++ (message ++ newline))%string.
Proof.
  unfold bufferedLog.
  set (pushed := {| logBuffer := (logBuffer l ++ [message])%list;
                    logFlushInterval := logFlushInterval l;
                    log_effects := log_effects l |}).
  assert (Hp : all_lines pushed
               = (all_lines l ++ (message ++ newline))%string).
  { unfold all_lines, pushed. cbn [log_effects logBuffer].
    rewrite as_lines_app, <- append_assoc. reflexivity. }
  clearbody pushed.
  set (flushed := if (MAX_LOG_BUFFER_SIZE
                      <=? N.of_nat (List.length (logBuffer pushed)))%N
                  then flushLogs pushed else pushed).
  assert (Hf : all_lines flushed = all_lines pushed)
    by (unfold flushed; destruct (_ <=? _)%N;
        [apply flushLogs_lines | reflexivity]).
  clearbody flushed. rewrite <- Hp, <- Hf.
  destruct (logFlushInterval flushed); [reflexivity |].
  unfold all_lines. cbn [log_effects logBuffer].
  rewrite console_text_app. unfold console_text at 2. cbn.
  rewrite append_nil_r. reflexivity.
Qed.

Lemma log_step_lines e l :
  all_lines (log_step e l)
  = (all_lines l ++ as_lines (logged [e]))%string.
Proof.
  destruct e as [message | |]; cbn [log_step].
  - rewrite bufferedLog_lines. reflexivity.
  - change (as_lines (logged [IntervalFires])) with EmptyString.
    rewrite append_nil_r.
    destruct (logFlushInterval l);
      [apply on_flush_interval_lines | reflexivity].
  - change (as_lines (logged [Flush])) with EmptyString.
    rewrite append_nil_r. apply flushLogs_lines.
Qed.

Lemma logged_app (e1 e2 : list log_event) :
  logged (e1 ++ e2) = (logged e1 ++ logged e2)%list.
Proof. apply flat_map_app. Qed.

Lemma log_run_lines events : forall l,
  all_lines (log_run events l)
  = (all_lines l ++ as_lines (logged events))%string.
Proof.
  induction events as [| e events IH]; intros l.
  - change (as_lines (logged [])) with EmptyString.
    rewrite append_nil_r. reflexivity.
  - change (log_run (e :: events) l) with (log_run events (log_step e l)).
    rewrite IH, log_step_lines.
    change (e :: events) with ([e] ++ events)%list.
    rewrite logged_app, as_lines_app, append_assoc. reflexivity.
Qed.

(** Buffering loses nothing and reorders nothing: whatever messages are
    logged and whenever the buffer is flushed (by its size, by the
    interval, by a handler), the characters printed so far followed by the
    lines still in the buffer are the messages in the order they were
    logged, each on a line of its own. *)
Theorem log_buffer_keeps_every_line (events : list log_event) :
  let l := log_run events no_logs in
  (console_text (log_effects l) ++ as_lines (logBuffer l))%string
  = as_lines (logged events).
Proof.
  intros l. exact (log_run_lines events no_logs).
Qed.

Lemma flushLogs_small l :
  logBuffer (flushLogs l) = [] \/ flushLogs l = l.
Proof. unfold flushLogs. destruct (logBuffer l); auto. Qed.

Lemma log_step_bounded e l :
  (N.of_nat (List.length (logBuffer l)) < MAX_LOG_BUFFER_SIZE)%N ->
  (N.of_nat (List.length (logBuffer (log_step e l))) < MAX_LOG_BUFFER_SIZE)%N.
Proof.
  unfold MAX_LOG_BUFFER_SIZE. intros H.
  destruct e as [message | |]; cbn [log_step].
  - unfold bufferedLog.
    set (pushed := {| logBuffer := (logBuffer l ++ [message])%list;
                      logFlushInterval := logFlushInterval l;
                      log_effects := log_effects l |}).
    assert (Hp : List.length (logBuffer pushed) = S (List.length (logBuffer l)))
      by (unfold pushed; cbn; rewrite length_app; cbn; lia).
    clearbody pushed. unfold MAX_LOG_BUFFER_SIZE.
    destruct (N.leb_spec 1000 (N.of_nat (List.length (logBuffer pushed))))
      as [Hfull | Hroom].
    + assert (Hb : logBuffer (flushLogs pushed) = []).
      { unfold flushLogs. destruct (logBuffer pushed) eqn:E; [| reflexivity].
        cbn in Hfull. lia. }
      destruct (logFlushInterval (flushLogs pushed)); cbn [logBuffer];
        rewrite Hb; cbn; lia.
    + destruct (logFlushInterval pushed); cbn [logBuffer]; lia.
  - destruct (logFlushInterval l); [| exact H].
    unfold on_flush_interval. destruct (logBuffer l) eqn:E;
      [rewrite E; cbn; lia | cbn; lia].
  - unfold flushLogs. destruct (logBuffer l) eqn:E;
      [rewrite E; cbn; lia | cbn; lia].
Qed.

(** The buffer never reaches [MAX_LOG_BUFFER_SIZE] messages between two
    operations: the message that would make it full is printed with the
    rest at once. *)
Theorem log_buffer_stays_below_limit (events : list log_event) :
  (N.of_nat (List.length (logBuffer (log_run events no_logs)))
   < MAX_LOG_BUFFER_SIZE)%N.
Proof.
  assert (H0 : (N.of_nat (List.length (logBuffer no_logs))
                < MAX_LOG_BUFFER_SIZE)%N) by (cbn; unfold MAX_LOG_BUFFER_SIZE; lia).
  generalize dependent no_logs.
  induction events as [| e events IH]; intros l H; [exact H |].
  change (log_run (e :: events) l) with (log_run events (log_step e l)).
  apply IH, log_step_bounded, H.
Qed.

Lemma intervals_set_app (e1 e2 : list log_effect) :
  intervals_set (e1 ++ e2) = (intervals_set e1 + intervals_set e2)%nat.
Proof. unfold intervals_set. rewrite filter_app. apply length_app. Qed.

Lemma flushLogs_interval l :
  logFlushInterval (flushLogs l) = logFlushInterval l /\
  intervals_set (log_effects (flushLogs l)) = intervals_set (log_effects l).
Proof.
  unfold flushLogs. destruct (logBuffer l); [auto |].
  cbn [logFlushInterval log_effects]. rewrite intervals_set_app. cbn. auto.
Qed.

Lemma bufferedLog_interval message l :
  interval_counted l ->
  interval_counted (bufferedLog message l) /\
  logFlushInterval (bufferedLog message l) = true.
Proof.
  unfold interval_counted, bufferedLog. intros H.
  set (pushed := {| logBuffer := (logBuffer l ++ [message])%list;
                    logFlushInterval := logFlushInterval l;
                    log_effects := log_effects l |}).
  set (flushed := if (MAX_LOG_BUFFER_SIZE
                      <=? N.of_nat (List.length (logBuffer pushed)))%N
                  then flushLogs pushed else pushed).
  assert (Hf : logFlushInterval flushed = logFlushInterval l /\
               intervals_set (log_effects flushed)
               = intervals_set (log_effects l)).
  { unfold flushed. destruct (_ <=? _)%N; [| split; reflexivity].
    destruct (flushLogs_interval pushed) as [-> ->]. split; reflexivity. }
  clearbody flushed. destruct Hf as [Hflag Hcount].
  destruct (logFlushInterval flushed) eqn:E.
  - rewrite E, Hcount, H, <- Hflag. auto.
  - cbn [logFlushInterval log_effects]. rewrite intervals_set_app, Hcount, H.
    rewrite <- Hflag. cbn. auto.
Qed.

Lemma log_step_interval e l :
  interval_counted l ->
  interval_counted (log_step e l) /\
  logFlushInterval (log_step e l)
  = (logFlushInterval l || match e with Log _ => true | _ => false end).
Proof.
  intros H. destruct e as [message | |]; cbn [log_step].
  - destruct (bufferedLog_interval message l H) as [H1 ->].
    rewrite orb_true_r. auto.
  - rewrite orb_false_r. destruct (logFlushInterval l) eqn:E; [| auto].
    unfold interval_counted.
    destruct (flushLogs_interval l) as [Hflag Hcount].
    change (on_flush_interval l) with (flushLogs l).
    rewrite Hflag, Hcount. auto.
  - rewrite orb_false_r. unfold interval_counted.
    destruct (flushLogs_interval l) as [-> ->]. auto.
Qed.

(** The flush interval is installed by the first message that is logged
    and never a second time, however many messages and flushes follow. *)
Theorem flush_interval_installed_once (events : list log_event) :
  let l := log_run events no_logs in
  (logged events = [] ->
   logFlushInterval l = false /\ intervals_set (log_effects l) = 0%nat) /\
  (logged events <> [] ->
   logFlushInterval l = true /\ intervals_set (log_effects l) = 1%nat).
Proof.
  intros l.
  assert (H : interval_counted l /\
              logFlushInterval l
              = (logFlushInterval no_logs
                 || negb (match logged events with [] => true | _ => false end))).
  { subst l.
    assert (H0 : interval_counted no_logs) by reflexivity.
    generalize dependent no_logs.
    induction events as [| e events IH]; intros l0 H0.
    - cbn. rewrite orb_false_r. auto.
    - change (log_run (e :: events) l0)
        with (log_run events (log_step e l0)).
      destruct (log_step_interval e l0 H0) as [H1 H2].
      destruct (IH _ H1) as [H3 H4]. split; [exact H3 |].
      rewrite H4, H2.
      change (e :: events) with ([e] ++ events)%list. rewrite logged_app.
      destruct e; cbn; rewrite ?orb_false_r, ?orb_true_r; reflexivity. }
  destruct H as [Hc Hflag]. unfold interval_counted in Hc. cbn in Hflag.
  split; intros Hl.
  - rewrite Hl in Hflag. cbn in Hflag. rewrite Hflag in Hc. auto.
  - destruct (logged events); [congruence |]. cbn in Hflag.
    rewrite Hflag in Hc. auto.
Qed.

End TradeFeedMore.
